(** * ZivyObraz client for a Raspberry Pi e-paper panel: update check and image decoders

    A shallow embedding of [zivyobraz.py]: the header protocol of
    [ZivyObrazClient.check_for_update], the format dispatch of
    [ZivyObrazClient.download_and_display_image], the BMP decoder and the
    three run-length decoders, followed by the properties proved of them.

    Conventions.
    - Python integers are [Z]; [//] is [Z.div] (both floor), [%] is [Z.modulo].
    - A [bytes] object is a [list byte]; [data[i]] is [py_getitem], which
      fails where Python raises [IndexError].
    - A function whose body sits in [try: ... except Exception: return None]
      returns [option]: [None] stands for the [None] of the source, whether
      returned or produced by the handler.
    - A Pillow image of mode ['L'] is its size and its row-major cell list.
    - What the machine decides and the program cannot see is a parameter:
      [Memory] tells which images Pillow is granted, [Clock] which sleeps
      the clock of the platform takes. The properties hold for every
      machine; the samples are evaluated on named ones. *)

From Stdlib Require Import ZArith Lia Bool.
From Stdlib.Strings Require Import String Ascii Byte.
From stdpp Require Import base numbers option list.

Local Open Scope string_scope.
Local Open Scope list_scope.
Local Open Scope Z_scope.

(** ** Constants of the module *)

Definition DEFAULT_SLEEP_TIME : Z := 120.
Definition DISPLAY_WIDTH : Z := 800.
Definition DISPLAY_HEIGHT : Z := 480.
Definition COLOR_WHITE : Z := 255.
Definition COLOR_BLACK : Z := 0.

(** ** Python primitives *)

(** The value 0..255 of one element of a [bytes] object. *)
Definition byte_val (b : byte) : Z := Z.of_N (Byte.to_N b).

(** [len(data)]. *)
Definition py_len {A} (l : list A) : Z := Z.of_nat (length l).

(** [l[i]]: a negative index counts from the end, anything outside
    [-len, len) raises [IndexError] ([None]). *)
Definition py_getitem {A} (l : list A) (i : Z) : option A :=
  let n := py_len l in
  if (0 <=? i) && (i <? n) then l !! Z.to_nat i
  else if (- n <=? i) && (i <? 0) then l !! Z.to_nat (n + i)
  else None.

(** [data[lo:hi]] for the non-negative bounds the source uses: the slice is
    clipped to the sequence, it never raises. *)
Definition py_slice {A} (l : list A) (lo hi : Z) : list A :=
  take (Z.to_nat (hi - lo)) (drop (Z.to_nat lo) l).

(** [struct.unpack] with the formats of the source; a buffer of the wrong
    size raises [struct.error] ([None]). *)
Definition unpack_H (bs : list byte) : option Z :=
  match bs with
  | [b0; b1] => Some (byte_val b0 + 256 * byte_val b1)
  | _ => None
  end.

Definition unpack_I (bs : list byte) : option Z :=
  match bs with
  | [b0; b1; b2; b3] =>
      Some (byte_val b0 + 256 * byte_val b1 + 65536 * byte_val b2
            + 16777216 * byte_val b3)
  | _ => None
  end.

(** ['<i']: the same four bytes read as a two's complement number. *)
Definition unpack_i (bs : list byte) : option Z :=
  u ← unpack_I bs;
  Some (if u <? 2 ^ 31 then u else u - 2 ^ 32).

Definition unpack_BBBB (bs : list byte) : option (Z * Z * Z * Z) :=
  match bs with
  | [b0; b1; b2; b3] => Some (byte_val b0, byte_val b1, byte_val b2, byte_val b3)
  | _ => None
  end.

(** [for x in xs: s = body(x, s)], where the body may raise. *)
Fixpoint for_each {S : Type} (xs : list Z) (body : Z → S → option S) (s : S)
  : option S :=
  match xs with
  | [] => Some s
  | x :: rest => s' ← body x s; for_each rest body s'
  end.

(** [for i in range(n)]. *)
Definition for_range {S : Type} (n : Z) (body : Z → S → option S) (s : S)
  : option S :=
  for_each (seqZ 0 n) body s.

(** *** Strings: [str.lower] and [int] *)

(** Header names and values reach the client decoded as Latin-1, one
    character per byte; [str.lower] on that range lowers A-Z and the
    accented capitals 0xC0-0xDE other than the multiplication sign. *)
Definition lower_char (c : ascii) : ascii :=
  let n := N_of_ascii c in
  if ((65 <=? n) && (n <=? 90))%N then ascii_of_N (n + 32)
  else if ((192 <=? n) && (n <=? 222) && negb (n =? 215))%N then ascii_of_N (n + 32)
  else c.

Fixpoint lower (s : string) : string :=
  match s with
  | EmptyString => EmptyString
  | String c rest => String (lower_char c) (lower rest)
  end.

(** White space as [int] skips it around the number: tab to carriage
    return and the blank, and in the upper half NEL (0x85) and the
    no-break space (0xA0). The separators 0x1C-0x1F, which [str.strip]
    removes, are not skipped by [int]. *)
Definition is_space (c : ascii) : bool :=
  let n := N_of_ascii c in
  (((9 <=? n) && (n <=? 13)) || (n =? 32) || (n =? 133) || (n =? 160))%N.

Definition is_digit (c : ascii) : bool :=
  let n := N_of_ascii c in ((48 <=? n) && (n <=? 57))%N.

Definition digit_val (c : ascii) : Z := Z.of_N (N_of_ascii c) - 48.

Fixpoint lstrip (cs : list ascii) : list ascii :=
  match cs with
  | c :: rest => if is_space c then lstrip rest else cs
  | [] => []
  end.

Definition strip (cs : list ascii) : list ascii :=
  reverse (lstrip (reverse (lstrip cs))).

(** [sys.int_info.default_max_str_digits]: [int] refuses a string with
    more decimal digits than that. *)
Definition MAX_STR_DIGITS : Z := 4300.

(** Decimal digits, a single underscore allowed between two digits.
    [after_digit] tells whether the character just read was a digit,
    [count] how many digits were read. *)
Fixpoint int_digits (acc count : Z) (after_digit : bool) (cs : list ascii)
  : option Z :=
  match cs with
  | [] => if after_digit && (count <=? MAX_STR_DIGITS) then Some acc else None
  | c :: rest =>
      if is_digit c then int_digits (10 * acc + digit_val c) (count + 1) true rest
      else if Ascii.eqb c "_"%char && after_digit then int_digits acc count false rest
      else None
  end.

(** [int(value)] on a string: surrounding white space, an optional sign,
    then at most [MAX_STR_DIGITS] digits; anything else raises
    [ValueError] ([None]). *)
Definition py_int (value : string) : option Z :=
  match strip (list_ascii_of_string value) with
  | c :: rest =>
      if Ascii.eqb c "-"%char then Z.opp <$> int_digits 0 0 false rest
      else if Ascii.eqb c "+"%char then int_digits 0 0 false rest
      else int_digits 0 0 false (c :: rest)
  | [] => None
  end.

(** ** Pillow images *)

Record Image : Type := mkImage {
  im_width : Z;
  im_height : Z;
  im_data : list Z            (* row-major: cell (x, y) is at y * width + x *)
}.

(** What the machine grants Pillow: [allocates w h] tells whether the
    cells of an image of [w] by [h] can be had. It stands for everything
    that decides it outside the program: the memory left, and the limits
    Pillow itself puts on the length of a line and on the size of an
    image. *)
Class Memory : Type := { allocates : Z → Z → bool }.

(** The largest C [int], which Pillow uses for a width and a height. *)
Definition INT_MAX : Z := 2 ^ 31 - 1.

(** An image no wider and no higher than the panel. The client builds one
    of exactly that size for every run-length payload, so an image within
    that size is taken to be granted always. *)
Definition within_panel (w h : Z) : bool :=
  (w <=? DISPLAY_WIDTH) && (h <=? DISPLAY_HEIGHT).

(** [Image.new('L', (w, h), fill)]. A negative size raises [ValueError], a
    size that does not fit a C [int] raises [OverflowError], and the
    allocation raises [MemoryError] when the machine does not grant it. *)
Definition image_new {mem : Memory} (w h fill : Z) : option Image :=
  if (0 <=? w) && (0 <=? h) && (w <=? INT_MAX) && (h <=? INT_MAX)
     && (within_panel w h || allocates w h)
  then Some (mkImage w h (replicate (Z.to_nat (w * h)) fill))
  else None.

(** How pixel access resolves a coordinate: a negative one counts from the
    far edge, and whatever is still outside raises [IndexError]. *)
Definition pixel_index (im : Image) (x y : Z) : option nat :=
  let x := if x <? 0 then im_width im + x else x in
  let y := if y <? 0 then im_height im + y else y in
  if (0 <=? x) && (x <? im_width im) && (0 <=? y) && (y <? im_height im)
  then Some (Z.to_nat (y * im_width im + x))
  else None.

(** [pixels[x, y]]. *)
Definition getpixel (im : Image) (x y : Z) : option Z :=
  i ← pixel_index im x y; im_data im !! i.

(** [pixels[x, y] = v]. *)
Definition putpixel (im : Image) (x y v : Z) : option Image :=
  i ← pixel_index im x y;
  Some (mkImage (im_width im) (im_height im) (<[i := v]> (im_data im))).

(** [image.convert('1')] on a mode ['L'] image. Pillow quantises each cell
    to 255 when the level exceeds 128 and to 0 otherwise, and diffuses the
    quantisation error to the neighbours; that error is 0 for the levels 0
    and 255, the only ones the decoders store, so the model keeps the
    quantisation alone. The result has the size of its argument; what
    [Memory] grants is meant to cover the pair. *)
Definition convert_1 (im : Image) : Image :=
  mkImage (im_width im) (im_height im)
          ((λ v, if 128 <? v then 255 else 0) <$> im_data im).

(** ** The update check *)

(** The attributes of [ZivyObrazClient] the update check reads and writes. *)
Record ZivyObrazClient : Type := mkClient {
  timestamp : Z;
  sleep_time : Z;
  rotation : Z
}.

(** [ZivyObrazClient.__init__]. *)
Definition init_client : ZivyObrazClient := mkClient 0 DEFAULT_SLEEP_TIME 0.

(** What [requests.get] does: it raises a [RequestException] (time-out,
    connection error, ...) or returns a response with a status code and
    headers, which [response.headers.items()] yields in order. *)
Inductive http_result : Type :=
| RequestException
| Response (status_code : Z) (headers : list (string * string)).

(** How a call of [check_for_update] ends: it returns its triple, or the
    [ValueError] of an [int(value)] leaves through the handler for
    [requests.RequestException], which does not catch it. *)
Inductive check_outcome : Type :=
| Returned (needs_update : bool) (sleep_time : Z) (rotation : Z)
| RaisedValueError.

(** One turn of the loop over the headers; the accumulator is
    [(timestamp_now, sleep_time, rotation)]. *)
Definition header_step (acc : Z * Z * Z) (hv : string * string)
  : option (Z * Z * Z) :=
  let '(timestamp_now, sleep_time, rotation) := acc in
  let '(header, value) := hv in
  let header_lower := lower header in
  if String.eqb header_lower "timestamp" then
    v ← py_int value; Some (v, sleep_time, rotation)
  else if String.eqb header_lower "sleep" then
    v ← py_int value; Some (timestamp_now, v * 60, rotation)
  else if String.eqb header_lower "sleepseconds" then
    v ← py_int value; Some (timestamp_now, v, rotation)
  else if String.eqb header_lower "rotate" then
    v ← py_int value; Some (timestamp_now, sleep_time, v)
  else Some acc.

Fixpoint parse_loop (acc : Z * Z * Z) (headers : list (string * string))
  : option (Z * Z * Z) :=
  match headers with
  | [] => Some acc
  | hv :: rest => acc' ← header_step acc hv; parse_loop acc' rest
  end.

(** The header loop from its initial values. *)
Definition parse_headers (headers : list (string * string)) : option (Z * Z * Z) :=
  parse_loop (0, DEFAULT_SLEEP_TIME, 0) headers.

(** [check_for_update], given what the request produced: the client after
    the call and how the call ended. *)
Definition check_for_update (self : ZivyObrazClient) (r : http_result)
  : ZivyObrazClient * check_outcome :=
  match r with
  | RequestException => (self, Returned false DEFAULT_SLEEP_TIME 0)
  | Response status_code headers =>
      if negb (status_code =? 200) then (self, Returned false DEFAULT_SLEEP_TIME 0)
      else
        match parse_headers headers with
        | None => (self, RaisedValueError)
        | Some (timestamp_now, sleep_time, rotation) =>
            if negb (timestamp_now =? timestamp self)
            then (mkClient timestamp_now sleep_time rotation,
                  Returned true sleep_time rotation)
            else (self, Returned false sleep_time rotation)
        end
  end.

(** A run of calls, as the main loop makes them one per iteration: the final
    client and the outcomes in order. *)
Fixpoint check_all (self : ZivyObrazClient) (rs : list http_result)
  : ZivyObrazClient * list check_outcome :=
  match rs with
  | [] => (self, [])
  | r :: rest =>
      let '(self', o) := check_for_update self r in
      let '(self'', os) := check_all self' rest in
      (self'', o :: os)
  end.

(** ** The BMP decoder *)

(** One turn of [for i in range(num_colors)]: the palette entry appended. *)
Definition palette_entry (data : list byte) (palette_offset i : Z) : option Z :=
  let idx := palette_offset + i * 4 in
  if idx + 4 <=? py_len data then
    '(b, g, r, _) ← unpack_BBBB (py_slice data idx (idx + 4));
    let gray := (r + g + b) `div` 3 in
    Some (if 0x80 <? gray then COLOR_WHITE else COLOR_BLACK)
  else Some COLOR_WHITE.

(** [palette[pn] if pn < len(palette) else COLOR_WHITE]. *)
Definition palette_lookup (palette : list Z) (pn : Z) : option Z :=
  if pn <? py_len palette then py_getitem palette pn else Some COLOR_WHITE.

(** The bodies of the five [for col in range(width)] loops. Each yields
    [Some (Some v)] when it stores [v] at [pixels[col, y]], [Some None] when
    its bounds test fails and the cell is left alone, and [None] when a read
    raises. *)
Definition bmp_px_1 (data : list byte) (palette : list Z) (row_offset col : Z)
  : option (option Z) :=
  let byte_idx := row_offset + col `div` 8 in
  if byte_idx <? py_len data then
    d ← py_getitem data byte_idx;
    let bit := 7 - col `mod` 8 in
    let pn := Z.land (Z.shiftr (byte_val d) bit) 1 in
    v ← palette_lookup palette pn;
    Some (Some v)
  else Some None.

Definition bmp_px_4 (data : list byte) (palette : list Z) (row_offset col : Z)
  : option (option Z) :=
  let byte_idx := row_offset + col `div` 2 in
  if byte_idx <? py_len data then
    d ← py_getitem data byte_idx;
    let pn := if col `mod` 2 =? 0
              then Z.land (Z.shiftr (byte_val d) 4) 0x0F
              else Z.land (byte_val d) 0x0F in
    v ← palette_lookup palette pn;
    Some (Some v)
  else Some None.

Definition bmp_px_8 (data : list byte) (palette : list Z) (row_offset col : Z)
  : option (option Z) :=
  let byte_idx := row_offset + col in
  if byte_idx <? py_len data then
    d ← py_getitem data byte_idx;
    let pn := byte_val d in
    v ← palette_lookup palette pn;
    Some (Some v)
  else Some None.

Definition bmp_px_16 (data : list byte) (compression row_offset col : Z)
  : option (option Z) :=
  let byte_idx := row_offset + col * 2 in
  if byte_idx + 1 <? py_len data then
    lsb ← byte_val <$> py_getitem data byte_idx;
    msb ← byte_val <$> py_getitem data (byte_idx + 1);
    let '(r, g, b) :=
      if compression =? 0 then
        (Z.shiftl (Z.land msb 0x7C) 1,
         Z.lor (Z.shiftl (Z.land msb 0x03) 6) (Z.shiftr (Z.land lsb 0xE0) 2),
         Z.shiftl (Z.land lsb 0x1F) 3)
      else
        (Z.land msb 0xF8,
         Z.lor (Z.shiftl (Z.land msb 0x07) 5) (Z.shiftr (Z.land lsb 0xE0) 3),
         Z.shiftl (Z.land lsb 0x1F) 3) in
    let whitish := 3 * 0x80 <? r + g + b in
    Some (Some (if whitish then COLOR_WHITE else COLOR_BLACK))
  else Some None.

Definition bmp_px_rgb (data : list byte) (bytes_per_pixel row_offset col : Z)
  : option (option Z) :=
  let byte_idx := row_offset + col * bytes_per_pixel in
  if byte_idx + 2 <? py_len data then
    b ← byte_val <$> py_getitem data byte_idx;
    g ← byte_val <$> py_getitem data (byte_idx + 1);
    r ← byte_val <$> py_getitem data (byte_idx + 2);
    let whitish := 3 * 0x80 <? r + g + b in
    Some (Some (if whitish then COLOR_WHITE else COLOR_BLACK))
  else Some None.

(** [for col in range(width): ... pixels[col, y] = ...] around one of the
    bodies above. *)
Definition store_row (px : Z → option (option Z)) (width y : Z) (image : Image)
  : option Image :=
  for_range width
    (λ col image,
       v ← px col;
       match v with
       | Some c => putpixel image col y c
       | None => Some image
       end)
    image.

(** The body of [for row in range(height)]: the choice of the output line
    and the dispatch on the bit depth. A depth that matches no branch
    stores nothing. *)
Definition bmp_row (data : list byte) (palette : list Z)
    (image_offset row_size width height depth compression : Z) (flip : bool)
    (row : Z) (image : Image) : option Image :=
  let y := if flip then height - 1 - row else row in
  let row_offset := image_offset + row * row_size in
  if depth =? 1 then store_row (bmp_px_1 data palette row_offset) width y image
  else if depth =? 4 then store_row (bmp_px_4 data palette row_offset) width y image
  else if depth =? 8 then store_row (bmp_px_8 data palette row_offset) width y image
  else if depth =? 16 then store_row (bmp_px_16 data compression row_offset) width y image
  else if (depth =? 24) || (depth =? 32) then
    let bytes_per_pixel := depth `div` 8 in
    store_row (bmp_px_rgb data bytes_per_pixel row_offset) width y image
  else Some image.

(** The fields [decode_bmp] unpacks from the header. *)
Record bmp_header : Type := mkHeader {
  bh_signature : Z;
  bh_file_size : Z;
  bh_image_offset : Z;
  bh_header_size : Z;
  bh_width : Z;
  bh_height : Z;               (* signed *)
  bh_planes : Z;
  bh_depth : Z;
  bh_compression : Z
}.

Definition read_header (data : list byte) : option bmp_header :=
  signature ← unpack_H (py_slice data 0 2);
  file_size ← unpack_I (py_slice data 2 6);
  image_offset ← unpack_I (py_slice data 10 14);
  header_size ← unpack_I (py_slice data 14 18);
  width ← unpack_I (py_slice data 18 22);
  height ← unpack_i (py_slice data 22 26);
  planes ← unpack_H (py_slice data 26 28);
  depth ← unpack_H (py_slice data 28 30);
  compression ← unpack_I (py_slice data 30 34);
  Some (mkHeader signature file_size image_offset header_size width height
                 planes depth compression).

(** Row size, padded to a 4-byte boundary. *)
Definition bmp_row_size (width depth : Z) : Z :=
  if depth <? 8 then ((width * depth + 31) `div` 32) * 4
  else (((width * depth) `div` 8 + 3) `div` 4) * 4.

(** The palette of an indexed image, empty above 8 bits per pixel. *)
Definition read_palette (data : list byte) (header_size depth : Z) : option (list Z) :=
  if depth <=? 8 then
    let palette_offset := 14 + header_size in
    let num_colors := Z.shiftl 1 depth in
    mapM (palette_entry data palette_offset) (seqZ 0 num_colors)
  else Some [].

(** [decode_bmp]. The signature test is made on the first field as soon as
    it is unpacked; the later fields are unpacked from a buffer of at least
    54 bytes, so the order of the tests among them does not show. *)
Definition decode_bmp {mem : Memory} (data : list byte) : option Image :=
  if py_len data <? 54 then None else
  signature ← unpack_H (py_slice data 0 2);
  if negb (signature =? 0x4D42) then None else
  h ← read_header data;
  if negb (bh_planes h =? 1) then None else
  if negb ((bh_compression h =? 0) || (bh_compression h =? 3)) then None else
  let flip := 0 <? bh_height h in
  let height := Z.abs (bh_height h) in
  let width := bh_width h in
  image ← image_new width height COLOR_WHITE;
  let row_size := bmp_row_size width (bh_depth h) in
  palette ← read_palette data (bh_header_size h) (bh_depth h);
  image ← for_range height
            (bmp_row data palette (bh_image_offset h) row_size width height
                     (bh_depth h) (bh_compression h) flip)
            image;
  Some (convert_1 image).

(** ** The run-length decoders *)

(** [_get_color_from_index]. *)
Definition _get_color_from_index (pixel_color : Z) : Z :=
  if pixel_color =? 0 then COLOR_WHITE
  else if pixel_color =? 1 then COLOR_BLACK
  else COLOR_BLACK.

(** [for _ in range(count)], the loop the three decoders share, on the
    image and the cursor [(x, y)]. Leaving through [break] drops the turns
    that remain. *)
Fixpoint paint_run (count : nat) (color : Z) (st : Image * Z * Z)
  : option (Image * Z * Z) :=
  match count with
  | O => Some st
  | S count' =>
      let '(image, x, y) := st in
      image ← (if (x <? DISPLAY_WIDTH) && (y <? DISPLAY_HEIGHT)
               then putpixel image x y color else Some image);
      let x := x + 1 in
      if DISPLAY_WIDTH <=? x then
        let x := 0 in
        let y := y + 1 in
        if DISPLAY_HEIGHT <=? y then Some (image, x, y)
        else paint_run count' color (image, x, y)
      else paint_run count' color (image, x, y)
  end.

(** [range(count)] for a count read from a byte. *)
Definition run_length (count : Z) : nat := Z.to_nat count.

(** The [while] loops. The list argument is the unread part
    [data[idx:]] of the payload; a token is taken while enough bytes
    remain and the cursor is above the last line. *)
Fixpoint z1_loop (unread : list byte) (st : Image * Z * Z)
  : option (Image * Z * Z) :=
  match unread with
  | d0 :: d1 :: unread' =>
      if st.2 <? DISPLAY_HEIGHT then
        let pixel_color := byte_val d0 in
        let count := byte_val d1 in
        let color := _get_color_from_index pixel_color in
        st' ← paint_run (run_length count) color st;
        z1_loop unread' st'
      else Some st
  | _ => Some st
  end.

Fixpoint z2_loop (unread : list byte) (st : Image * Z * Z)
  : option (Image * Z * Z) :=
  match unread with
  | d :: unread' =>
      if st.2 <? DISPLAY_HEIGHT then
        let compressed := byte_val d in
        let count := Z.land compressed 0x3F in
        let pixel_color := Z.shiftr (Z.land compressed 0xC0) 6 in
        let color := _get_color_from_index pixel_color in
        st' ← paint_run (run_length count) color st;
        z2_loop unread' st'
      else Some st
  | [] => Some st
  end.

Fixpoint z3_loop (unread : list byte) (st : Image * Z * Z)
  : option (Image * Z * Z) :=
  match unread with
  | d :: unread' =>
      if st.2 <? DISPLAY_HEIGHT then
        let compressed := byte_val d in
        let count := Z.land compressed 0x1F in
        let pixel_color := Z.shiftr (Z.land compressed 0xE0) 5 in
        let color := _get_color_from_index pixel_color in
        st' ← paint_run (run_length count) color st;
        z3_loop unread' st'
      else Some st
  | [] => Some st
  end.

(** The frame the three decoders share: a white canvas, the loop from
    [idx = 2] and the cursor at the origin, the conversion of the result. *)
Definition decode_rle {mem : Memory}
    (loop : list byte → Image * Z * Z → option (Image * Z * Z))
    (data : list byte) : option Image :=
  image ← image_new DISPLAY_WIDTH DISPLAY_HEIGHT COLOR_WHITE;
  st ← loop (drop 2 data) (image, 0, 0);
  Some (convert_1 st.1.1).

Definition decode_rle_z1 {mem : Memory} : list byte → option Image :=
  decode_rle z1_loop.
Definition decode_rle_z2 {mem : Memory} : list byte → option Image :=
  decode_rle z2_loop.
Definition decode_rle_z3 {mem : Memory} : list byte → option Image :=
  decode_rle z3_loop.

(** ** Format dispatch *)

(** The ways [download_and_display_image] gives up between receiving the
    body and having an image, named after what it logs. *)
Inductive decode_error : Type :=
| ResponseTooShort        (* "Response too short" *)
| UnknownFormat           (* "Unknown image format" *)
| DecodeFailed            (* "Failed to decode image" *)
| ProcessingError.        (* "Error processing image": an exception *)

(** The decoders, as tags. *)
Inductive image_format : Type := BMP | Z1 | Z2 | Z3.

Definition decoder_of {mem : Memory} (f : image_format)
  : list byte → option Image :=
  match f with
  | BMP => decode_bmp
  | Z1 => decode_rle_z1
  | Z2 => decode_rle_z2
  | Z3 => decode_rle_z3
  end.

(** The [if]/[elif] chain on the header word: the branch taken, if any. *)
Definition format_of_header (header : Z) : option image_format :=
  if header =? 0x4D42 then Some BMP
  else if header =? 0x315A then Some Z1
  else if header =? 0x325A then Some Z2
  else if header =? 0x335A then Some Z3
  else None.

(** [download_and_display_image] from the response body to the decoded
    image: the length test, the header word, the decoder of the branch
    taken, the test for [None]. The function returns [False] in each of the
    error cases. *)
Definition decode_payload {mem : Memory} (data : list byte)
  : decode_error + Image :=
  if py_len data <? 2 then inl ResponseTooShort else
  match unpack_H (py_slice data 0 2) with
  | None => inl ProcessingError
  | Some header =>
      match format_of_header header with
      | None => inl UnknownFormat
      | Some f =>
          match decoder_of f data with
          | None => inl DecodeFailed
          | Some image => inr image
          end
      end
  end.

(** ** Rotation and the hand-over to the panel *)

(** A Pillow image built cell by cell from another one: the cell (x, y) of
    the result is the cell [src x y] of [im]. *)
Definition remap (w h : Z) (src : Z → Z → Z * Z) (im : Image) : Image :=
  mkImage w h
    ((λ i, let '(x, y) := src (i `mod` w) (i `div` w) in
           default 0 (getpixel im x y)) <$> seqZ 0 (w * h)).

(** [Image.transpose] with [ROTATE_90] (a quarter turn counter-clockwise),
    [ROTATE_180] and [ROTATE_270] (a quarter turn clockwise). [Image.rotate]
    is exactly one of these when the angle is a multiple of 90 and, for the
    quarter turns, [expand] is set: it resamples nothing. *)
Definition ROTATE_90 (im : Image) : Image :=
  remap (im_height im) (im_width im) (λ x y, (im_width im - 1 - y, x)) im.
Definition ROTATE_180 (im : Image) : Image :=
  remap (im_width im) (im_height im)
        (λ x y, (im_width im - 1 - x, im_height im - 1 - y)) im.
Definition ROTATE_270 (im : Image) : Image :=
  remap (im_height im) (im_width im) (λ x y, (y, im_height im - 1 - x)) im.

(** "Apply rotation if needed" in [download_and_display_image]:
    [rotate(-90, expand=True)] for 1, [rotate(180)] for 2,
    [rotate(90, expand=True)] for 3, nothing for any other value. *)
Definition apply_rotation (rotation : Z) (image : Image) : Image :=
  if rotation =? 1 then ROTATE_270 image
  else if rotation =? 2 then ROTATE_180 image
  else if rotation =? 3 then ROTATE_90 image
  else image.

(** The test of [display_image]: the image is resized when its size is not
    that of the panel. *)
Definition needs_resize (image : Image) : bool :=
  negb ((im_width image =? DISPLAY_WIDTH) && (im_height image =? DISPLAY_HEIGHT)).

(** ** The main loop *)

(** What a turn of the loop of [run] does that shows outside: a call of
    [display_registration_info], a call of [time.sleep]. *)
Inductive loop_event : Type :=
| ShowRegistration
| Sleep (seconds : Z).

(** The handler [except Exception] of the loop, entered with the events
    [seen] so far: the registration screen once more if this is still the
    first run (whether that call raises does not matter, it is wrapped in
    [try] ... [except BaseException: pass]), then the default sleep. *)
Definition handle_error (first_run : bool) (seen : list loop_event)
  : bool * list loop_event :=
  if first_run
  then (false, seen ++ [ShowRegistration; Sleep DEFAULT_SLEEP_TIME])
  else (first_run, seen ++ [Sleep DEFAULT_SLEEP_TIME]).

(** The longest sleep [time.sleep] can take: it counts in nanoseconds on
    64 bits. *)
Definition MAX_SLEEP : Z := (2 ^ 63 - 1) `div` 10 ^ 9.

(** What the clock of the platform makes of a sleep of so many seconds that
    is neither negative nor above [MAX_SLEEP]: it is taken, or the call
    raises [OSError] or [OverflowError]. The end of the sleep, counted by
    the clock of the system, has to fit that clock, so the answer depends
    on the platform and on the moment of the call. *)
Class Clock : Type := { clock_takes : Z → bool }.

(** [time.sleep(sleep_time)] at the end of the [try] block. A negative
    argument raises [ValueError], one above [MAX_SLEEP] raises
    [OverflowError], and so does one the clock does not take; the handler
    catches each of them. *)
Definition sleep_step {clock : Clock}
    (first_run : bool) (sleep_time : Z) (seen : list loop_event)
  : bool * list loop_event :=
  if (sleep_time <? 0) || (MAX_SLEEP <? sleep_time) || negb (clock_takes sleep_time)
  then handle_error first_run seen
  else (first_run, seen ++ [Sleep sleep_time]).

(** One turn of [while True] in [run], interrupts from the keyboard apart.
    [r] is what the request of the check produced, [download_ok] what
    [download_and_display_image] returns if it is called, and
    [registration_ok] whether [display_registration_info] returns rather
    than raises if it is called in the [try] block. The result is the
    client, [first_run] and the events of the turn. *)
Definition run_turn {clock : Clock} (self : ZivyObrazClient) (first_run : bool)
    (r : http_result) (download_ok registration_ok : bool)
  : ZivyObrazClient * (bool * list loop_event) :=
  let '(self, outcome) := check_for_update self r in
  match outcome with
  | RaisedValueError => (self, handle_error first_run [])
  | Returned needs_update sleep_time rotation =>
      if needs_update then
        let success := download_ok in
        if negb success && first_run then
          if registration_ok then (self, sleep_step false sleep_time [ShowRegistration])
          else (self, handle_error first_run [ShowRegistration])
        else (self, sleep_step false sleep_time [])
      else if first_run then
        if registration_ok then (self, sleep_step false sleep_time [ShowRegistration])
        else (self, handle_error first_run [ShowRegistration])
      else (self, sleep_step first_run sleep_time [])
  end.

(** The turns of a run, each with its inputs: the events turn by turn. *)
Fixpoint run_turns {clock : Clock} (self : ZivyObrazClient) (first_run : bool)
    (turns : list (http_result * bool * bool)) : list (list loop_event) :=
  match turns with
  | [] => []
  | (r, download_ok, registration_ok) :: rest =>
      let '(self', (first_run', events)) :=
        run_turn self first_run r download_ok registration_ok in
      events :: run_turns self' first_run' rest
  end.

(** ** The device address *)

(** What reading [/sys/class/net/<interface>/address] gives: the file is
    missing ([FileNotFoundError]), the read fails otherwise, or a text. *)
Inductive read_result : Type :=
| FileNotFound
| ReadFailed
| Text (content : string).

Section DeviceAddress.

(** [str.strip] and [str.upper], left open: nothing below depends on what
    they do to a text. *)
Variables (str_strip str_upper : string → string).
(** The files of the interfaces, and [os.listdir('/sys/class/net/')],
    [None] when it raises. *)
Variable read_address : string → read_result.
Variable listdir : option (list string).

(** [mac and mac != '00:00:00:00:00:00']. *)
Definition usable (mac : string) : bool :=
  negb (String.eqb mac "") && negb (String.eqb mac "00:00:00:00:00:00").

(** [for interface in ['wlan0', 'eth0']]: [None] when an exception other
    than [FileNotFoundError] leaves the function, [Some None] when the loop
    ends, [Some (Some mac)] when it returns. *)
Fixpoint preferred_address (interfaces : list string) : option (option string) :=
  match interfaces with
  | [] => Some None
  | interface :: rest =>
      match read_address interface with
      | Text content =>
          let mac := str_upper (str_strip content) in
          if usable mac then Some (Some mac) else preferred_address rest
      | FileNotFound => preferred_address rest
      | ReadFailed => None
      end
  end.

(** [for iface in os.listdir(...)], where every exception of a read is
    swallowed: the address returned, if any. *)
Fixpoint fallback_address (ifaces : list string) : option string :=
  match ifaces with
  | [] => None
  | iface :: rest =>
      if String.eqb iface "lo" then fallback_address rest
      else
        match read_address iface with
        | Text content =>
            let mac := str_upper (str_strip content) in
            if usable mac then Some mac else fallback_address rest
        | _ => fallback_address rest
        end
  end.

(** [get_mac_address]; [None] when it raises. *)
Definition get_mac_address : option string :=
  match preferred_address ["wlan0"; "eth0"] with
  | None => None
  | Some (Some mac) => Some mac
  | Some None =>
      match listdir with
      | Some ifaces =>
          match fallback_address ifaces with
          | Some mac => Some mac
          | None => Some "00:00:00:00:00:00"
          end
      | None => Some "00:00:00:00:00:00"
      end
  end.


End DeviceAddress.

(** ** Vocabulary of the statements *)

(** A request that did not bring a usable answer: an exception of
    [requests], or a status other than 200. *)
Definition failed (r : http_result) : Prop :=
  match r with
  | RequestException => True
  | Response status_code _ => status_code ≠ 200
  end.

(** The header loop takes the branch of [name] on this header. *)
Definition is_header (name : string) (hv : string * string) : bool :=
  String.eqb (lower hv.1) name.

(** The header loop assigns [sleep_time] on this header. *)
Definition sets_sleep (hv : string * string) : bool :=
  is_header "sleep" hv || is_header "sleepseconds" hv.

(** The timestamp the last response of a run carried, 0 before the first. *)
Definition last_timestamp (run : list (list (string * string))) : Z :=
  match last run with
  | Some headers =>
      match parse_headers headers with
      | Some (timestamp_now, _, _) => timestamp_now
      | None => 0
      end
  | None => 0
  end.

(** A cell value the decoders store. *)
Abbreviation binary v := (v = COLOR_WHITE ∨ v = COLOR_BLACK).

(** An image whose cell list has the length its size asks for. *)
Definition wf_image (im : Image) : Prop :=
  0 ≤ im_width im ∧ 0 ≤ im_height im ∧
  length (im_data im) = Z.to_nat (im_width im * im_height im).

(** The coordinate lies on the image. *)
Definition inside (im : Image) (x y : Z) : Prop :=
  0 ≤ x < im_width im ∧ 0 ≤ y < im_height im.

(** The tokens of a run-length payload after its two header bytes, as
    (colour index, run length), for the Z1 and the Z2 layout. *)
Fixpoint z1_tokens (unread : list byte) : list (Z * nat) :=
  match unread with
  | d0 :: d1 :: unread' => (byte_val d0, run_length (byte_val d1)) :: z1_tokens unread'
  | _ => []
  end.

Definition z2_tokens (unread : list byte) : list (Z * nat) :=
  (λ d, (Z.shiftr (Z.land (byte_val d) 0xC0) 6,
         run_length (Z.land (byte_val d) 0x3F))) <$> unread.

(** The sum of the run lengths. *)
Definition run_total (toks : list (Z * nat)) : nat := sum_list (snd <$> toks).

(** The colours the tokens ask for, one per pixel, in raster order. *)
Definition expand (toks : list (Z * nat)) : list Z :=
  toks ≫= (λ t, replicate t.2 (_get_color_from_index t.1)).

(** The [while] loop of a run-length decoder over tokens already cut. *)
Fixpoint rle_loop (toks : list (Z * nat)) (st : Image * Z * Z)
  : option (Image * Z * Z) :=
  match toks with
  | [] => Some st
  | t :: rest =>
      if st.2 <? DISPLAY_HEIGHT then
        st' ← paint_run t.2 (_get_color_from_index t.1) st;
        rle_loop rest st'
      else Some st
  end.

(** The state of a run-length decoder is sound: a canvas of the display
    size, and a cursor on it or just below its last line. *)
Definition canvas (st : Image * Z * Z) : Prop :=
  let '(im, x, y) := st in
  im_width im = DISPLAY_WIDTH ∧ im_height im = DISPLAY_HEIGHT ∧
  length (im_data im) = Z.to_nat (DISPLAY_WIDTH * DISPLAY_HEIGHT) ∧
  0 ≤ x ∧ 0 ≤ y ∧
  ((x < DISPLAY_WIDTH ∧ y < DISPLAY_HEIGHT) ∨ (x = 0 ∧ y = DISPLAY_HEIGHT)).

(** The raster position of the cursor. *)
Definition cursor (st : Image * Z * Z) : Z :=
  let '(_, x, y) := st in y * DISPLAY_WIDTH + x.

(** The canvas the run-length decoders start from. *)
Definition blank_canvas : Image :=
  mkImage DISPLAY_WIDTH DISPLAY_HEIGHT
          (replicate (Z.to_nat (DISPLAY_WIDTH * DISPLAY_HEIGHT)) COLOR_WHITE).

(** The four bytes 0x31, 0x5A, 0b01_000101, 0b11_000010. *)
Definition z2_example : list byte := [x31; x5a; x45; xc2].

(** The header of a payload passes every test [decode_bmp] makes before
    it allocates the image. *)
Definition bmp_accepts (data : list byte) (h : bmp_header) : Prop :=
  54 ≤ py_len data ∧ read_header data = Some h ∧
  bh_signature h = 0x4D42 ∧ bh_planes h = 1 ∧
  (bh_compression h = 0 ∨ bh_compression h = 3).

(** The bit depths [decode_bmp] has a branch for. *)
Definition supported_depth (depth : Z) : bool :=
  (depth =? 1) || (depth =? 4) || (depth =? 8) || (depth =? 16)
  || (depth =? 24) || (depth =? 32).

(** The palette [decode_bmp] builds for the payload. *)
Definition bmp_palette (data : list byte) (h : bmp_header) : list Z :=
  default [] (read_palette data (bh_header_size h) (bh_depth h)).

(** Where row [row] of the pixel array starts. *)
Definition bmp_row_offset (h : bmp_header) (row : Z) : Z :=
  bh_image_offset h + row * bmp_row_size (bh_width h) (bh_depth h).

(** The loop body the dispatch of [bmp_row] selects for row [row], with
    the body that stores nothing for a depth without a branch. *)
Definition bmp_px (data : list byte) (h : bmp_header) (row col : Z)
  : option (option Z) :=
  let palette := bmp_palette data h in
  let row_offset := bmp_row_offset h row in
  let depth := bh_depth h in
  if depth =? 1 then bmp_px_1 data palette row_offset col
  else if depth =? 4 then bmp_px_4 data palette row_offset col
  else if depth =? 8 then bmp_px_8 data palette row_offset col
  else if depth =? 16 then bmp_px_16 data (bh_compression h) row_offset col
  else if (depth =? 24) || (depth =? 32)
       then bmp_px_rgb data (depth `div` 8) row_offset col
  else Some None.

(** Pixel [col] of source row [row], counted in the order the rows lie in
    the payload: the value decoded from its bytes, white where none is
    stored. *)
Definition source_pixel (data : list byte) (h : bmp_header) (row col : Z) : Z :=
  match bmp_px data h row col with
  | Some (Some v) => v
  | _ => COLOR_WHITE
  end.

(** The index of the last byte the decoder reads for that pixel. *)
Definition bmp_last_byte (h : bmp_header) (row col : Z) : Z :=
  let row_offset := bmp_row_offset h row in
  let depth := bh_depth h in
  if depth =? 1 then row_offset + col `div` 8
  else if depth =? 4 then row_offset + col `div` 2
  else if depth =? 8 then row_offset + col
  else if depth =? 16 then row_offset + col * 2 + 1
  else row_offset + col * (depth `div` 8) + 2.

(** The line of the image source row [row] is stored on. *)
Definition out_line (h : bmp_header) (row : Z) : Z :=
  if 0 <? bh_height h then Z.abs (bh_height h) - 1 - row else row.

(** What [download_and_display_image] makes of a decoder's result. *)
Definition decoded (r : option Image) : decode_error + Image :=
  match r with
  | Some image => inr image
  | None => inl DecodeFailed
  end.

(** *** Sample payloads *)

(** Little-endian fields. *)
Definition byte_of (n : Z) : byte :=
  default x00 (Byte.of_N (Z.to_N (n `mod` 256))).
Definition le16 (n : Z) : list byte := [byte_of n; byte_of (n `div` 256)].
Definition le32 (n : Z) : list byte :=
  le16 (n `mod` 65536) ++ le16 ((n `div` 65536) `mod` 65536).

(** A BMP file: the 14-byte file header, a 40-byte info header with one
    plane, then [body] (palette and pixel array). *)
Definition bmp_file (image_offset width height depth compression : Z)
    (body : list byte) : list byte :=
  [x42; x4d] ++ le32 (54 + py_len body) ++ le32 0 ++ le32 image_offset
  ++ le32 40 ++ le32 width ++ le32 height ++ le16 1 ++ le16 depth
  ++ le32 compression ++ replicate 20 x00 ++ body.

(** 8 x 10 at 1 bit per pixel with the palette (black, white); source row
    [r] is one byte of pixels and three of padding. *)
Definition bmp_1bpp (height : Z) : list byte :=
  bmp_file 62 8 height 1 0
    ([x00; x00; x00; x00; xff; xff; xff; x00]
     ++ ([x80; x40; x20; x10; x08; x04; x02; x01; xf0; x0f]
           ≫= λ b, [b; x00; x00; x00])).

(** 4 x 2 at 2 bits per pixel, a depth without a branch: four palette
    entries, two rows of one byte of pixels and three of padding. *)
Definition bmp_2bpp : list byte :=
  bmp_file 70 4 2 2 0
    ([x00; x00; x00; x00; x55; x55; x55; x00;
      xaa; xaa; xaa; x00; xff; xff; xff; x00]
     ++ [x1b; x00; x00; x00; xe4; x00; x00; x00]).

(** 2 x 2 at 24 bits per pixel, cut one byte into the last pixel of the
    second source row. *)
Definition bmp_24bpp_cut : list byte :=
  bmp_file 54 2 2 24 0
    [xff; xff; xff; x00; x00; x00; x00; x00;
     x00; x00; x00; x00; x00].

(** 1 x 1 at 32 bits per pixel, cut before the fourth byte of its pixel. *)
Definition bmp_32bpp_cut : list byte := bmp_file 54 1 1 32 0 [x00; x00; x00].

(** *** Further vocabulary *)

(** The header loop has a branch for this header. *)
Definition recognised (hv : string * string) : bool :=
  is_header "timestamp" hv || is_header "sleep" hv
  || is_header "sleepseconds" hv || is_header "rotate" hv.

(** Two header lists that differ in the case of the names only. *)
Definition same_headers (hs hs' : list (string * string)) : Prop :=
  Forall2 (λ a b, lower a.1 = lower b.1 ∧ a.2 = b.2) hs hs'.

(** The tokens of the Z3 layout. *)
Definition z3_tokens (unread : list byte) : list (Z * nat) :=
  (λ d, (Z.shiftr (Z.land (byte_val d) 0xE0) 5,
         run_length (Z.land (byte_val d) 0x1F))) <$> unread.

(** The colour the tokens give the cell (x, y): that of the run that covers
    its raster position, white behind the last run. *)
Definition raster_colour (toks : list (Z * nat)) (x y : Z) : Z :=
  default COLOR_WHITE (expand toks !! Z.to_nat (y * DISPLAY_WIDTH + x)).

(** The run length a Z2 or a Z3 byte carries is 0. *)
Definition z2_empty_run (d : byte) : bool := Z.land (byte_val d) 0x3F =? 0.
Definition z3_empty_run (d : byte) : bool := Z.land (byte_val d) 0x1F =? 0.

(** A value of [n] digits 1. *)
Definition ones_value (n : nat) : string :=
  string_of_list_ascii (replicate n "1"%char).

(** *** Machines *)

(** A machine that grants no image beyond the size of the panel, and one
    that grants every image. *)
Definition no_spare_memory : Memory := {| allocates := λ _ _, false |}.
Definition ample_memory : Memory := {| allocates := λ _ _, true |}.

(** [Image.new] returns the image [decode_bmp] asks for under this header. *)
Definition bmp_allocated {mem : Memory} (h : bmp_header) : Prop :=
  is_Some (image_new (bh_width h) (Z.abs (bh_height h)) COLOR_WHITE).

(** *** The pixel array as the specification reads it

    The definitions of this part follow the words of the specification of
    the BMP container, not the decoder: they are what the rows the decoder
    stores are compared with. *)

(** The least integer not below [a / b]. *)
Definition ceil_div (a b : Z) : Z := - ((- a) `div` b).

(** "For depth >= 8, stride = ceil(width*depth/8 / 4) * 4; for depth < 8,
    stride = ceil(width*depth / 32) * 4." The quotient by 8 is not
    rounded: the ceiling of [x / 8 / 4] is that of [x / (8 * 4)]. *)
Definition spec_stride (width depth : Z) : Z :=
  if 8 <=? depth then ceil_div (width * depth) (8 * 4) * 4
  else ceil_div (width * depth) 32 * 4.

(** The byte of the payload at an index, if it has one. *)
Definition payload_byte (data : list byte) (i : Z) : option Z :=
  if i <? 0 then None else byte_val <$> data !! Z.to_nat i.

(** "Sum of channels > 3*0x80 -> white, else black." *)
Definition spec_threshold (r g b : Z) : Z :=
  if 3 * 0x80 <? r + g + b then COLOR_WHITE else COLOR_BLACK.

(** "A palette immediately follows the header (14 + headerSize offset),
    holding 2^depth BGR(+reserved) entries; each entry is reduced to
    white/black by averaging its three channels and thresholding at
    > 0x80 -> white else black. Missing/short palette entries default to
    white." The average is read as the whole part of the third of the
    sum, and an entry as short when one of its four bytes is missing. *)
Definition spec_palette (data : list byte) (header_size i : Z) : Z :=
  let p := 14 + header_size + 4 * i in
  match payload_byte data p, payload_byte data (p + 1),
        payload_byte data (p + 2), payload_byte data (p + 3) with
  | Some b, Some g, Some r, Some _ =>
      if 0x80 <? (b + g + r) `div` 3 then COLOR_WHITE else COLOR_BLACK
  | _, _, _, _ => COLOR_WHITE
  end.

(** Pixel [col] of row [row] of the pixel array, the rows counted as they
    lie in the payload. 1 bpp: one bit per pixel, the most significant
    first, indexed into the palette. 4 bpp: one nibble per pixel, the high
    one for an even column. 8 bpp: one byte per pixel. 16 bpp: two bytes
    per pixel, the low one first, read as 5-6-5 when the compression is 3
    and as 5-5-5 (one padding bit on top) otherwise, each channel aligned
    to the top of 8 bits, then the threshold on the sum. 24 and 32 bpp:
    the bytes B, G, R of the pixel, then the same threshold. A pixel one
    of whose bytes lies behind the end of the payload is white. *)
Definition spec_pixel (data : list byte) (h : bmp_header) (row col : Z) : Z :=
  let start := bh_image_offset h + row * spec_stride (bh_width h) (bh_depth h) in
  let colour := spec_palette data (bh_header_size h) in
  let depth := bh_depth h in
  if depth =? 1 then
    match payload_byte data (start + col `div` 8) with
    | Some d => colour ((d `div` 2 ^ (7 - col `mod` 8)) `mod` 2)
    | None => COLOR_WHITE
    end
  else if depth =? 4 then
    match payload_byte data (start + col `div` 2) with
    | Some d => colour (if Z.even col then d `div` 16 else d `mod` 16)
    | None => COLOR_WHITE
    end
  else if depth =? 8 then
    match payload_byte data (start + col) with
    | Some d => colour d
    | None => COLOR_WHITE
    end
  else if depth =? 16 then
    match payload_byte data (start + 2 * col),
          payload_byte data (start + 2 * col + 1) with
    | Some lsb, Some msb =>
        let word := lsb + 256 * msb in
        if bh_compression h =? 3
        then spec_threshold (8 * (word `div` 2048))
                            (4 * ((word `div` 32) `mod` 64))
                            (8 * (word `mod` 32))
        else spec_threshold (8 * ((word `div` 1024) `mod` 32))
                            (8 * ((word `div` 32) `mod` 32))
                            (8 * (word `mod` 32))
    | _, _ => COLOR_WHITE
    end
  else
    let p := start + (depth `div` 8) * col in
    match payload_byte data p, payload_byte data (p + 1),
          payload_byte data (p + 2) with
    | Some b, Some g, Some r => spec_threshold r g b
    | _, _, _ => COLOR_WHITE
    end.

(** A header alone, 24 bits per pixel, one line of 2^31 pixels. *)
Definition bmp_too_wide : list byte := bmp_file 54 (2 ^ 31) 1 24 0 [].

(** * Properties *)

(** ** The update check *)

Section CheckForUpdate.

Local Arguments header_step : simpl never.

Implicit Types (self : ZivyObrazClient) (headers : list (string * string)).

Lemma parse_loop_app acc headers1 headers2 :
  parse_loop acc (headers1 ++ headers2)
  = acc' ← parse_loop acc headers1; parse_loop acc' headers2.
Proof.
  revert acc. induction headers1 as [|hv rest IH]; intros acc; simpl; [done|].
  destruct (header_step acc hv) as [acc'|]; simpl; [apply IH|done].
Qed.

(** A header the loop has no branch for leaves the accumulator alone. *)
Lemma header_step_other acc hv :
  is_header "timestamp" hv = false → is_header "sleep" hv = false →
  is_header "sleepseconds" hv = false → is_header "rotate" hv = false →
  header_step acc hv = Some acc.
Proof.
  destruct acc as [[ts sl] rot], hv as [name value].
  unfold is_header, header_step; cbn [fst]. by intros -> -> -> ->.
Qed.

(** Headers other than [sleep] and [sleepseconds] keep [sleep_time]. *)
Lemma header_step_keeps_sleep ts sl rot hv ts' sl' rot' :
  sets_sleep hv = false →
  header_step (ts, sl, rot) hv = Some (ts', sl', rot') → sl' = sl.
Proof.
  destruct hv as [name value]. unfold sets_sleep, is_header, header_step; cbn [fst].
  intros [Hs Hss]%orb_false_elim. rewrite Hs, Hss.
  repeat case_match; intros; simplify_option_eq; done.
Qed.

Lemma parse_loop_keeps_sleep headers ts sl rot ts' sl' rot' :
  forallb (λ hv, negb (sets_sleep hv)) headers = true →
  parse_loop (ts, sl, rot) headers = Some (ts', sl', rot') → sl' = sl.
Proof.
  revert ts sl rot. induction headers as [|hv rest IH]; intros ts sl rot; simpl.
  - intros _ [= _ -> _]. done.
  - intros [Hhv Hrest]%andb_prop Hrun.
    destruct (header_step (ts, sl, rot) hv) as [[[ts1 sl1] rot1]|] eqn:Hstep;
      simpl in Hrun; [|done].
    apply negb_true_iff in Hhv.
    rewrite <- (header_step_keeps_sleep _ _ _ _ _ _ _ Hhv Hstep).
    eauto.
Qed.


(** What a call does with an answer of status 200 whose headers parse. *)
Lemma check_for_update_parsed self headers ts sl rot :
  parse_headers headers = Some (ts, sl, rot) →
  check_for_update self (Response 200 headers)
  = if negb (ts =? timestamp self)
    then (mkClient ts sl rot, Returned true sl rot)
    else (self, Returned false sl rot).
Proof. intros Hp. unfold check_for_update. simpl. by rewrite Hp. Qed.

(** After such a call the stored timestamp is the one just parsed. *)
Lemma check_for_update_stores self headers ts sl rot :
  parse_headers headers = Some (ts, sl, rot) →
  timestamp (check_for_update self (Response 200 headers)).1 = ts.
Proof.
  intros Hp. rewrite (check_for_update_parsed _ _ _ _ _ Hp).
  destruct (Z.eqb_spec ts (timestamp self)); simpl; congruence.
Qed.

Lemma check_all_cons self r rs :
  check_all self (r :: rs)
  = ((check_all (check_for_update self r).1 rs).1,
     (check_for_update self r).2 :: (check_all (check_for_update self r).1 rs).2).
Proof.
  simpl. destruct (check_for_update self r) as [self' o]; simpl.
  by destruct (check_all self' rs).
Qed.

Lemma check_all_timestamp run self :
  Forall (λ headers, is_Some (parse_headers headers)) run →
  timestamp (check_all self (Response 200 <$> run)).1
  = match last run with
    | Some _ => last_timestamp run
    | None => timestamp self
    end.
Proof.
  intros Hall. revert self.
  induction Hall as [|headers rest [[[ts sl] rot] Hp] _ IH]; intros self; [done|].
  rewrite fmap_cons, check_all_cons; cbn [fst]. rewrite IH.
  unfold last_timestamp. destruct rest as [|headers' rest'].
  - cbn [last]. rewrite Hp. by apply check_for_update_stores with sl rot.
  - rewrite last_cons_cons.
    destruct (last (headers' :: rest')) eqn:Hlast; [done|].
    by apply last_None in Hlast.
Qed.

End CheckForUpdate.

(** C1. Over any run of checks whose responses parsed, starting from a new
    client: the stored timestamp is the one of the last response (0 before
    the first), and a further parsed response is reported as an update
    exactly when its timestamp differs from the stored one; the client takes
    the three parsed values when it is, and is left as it was when it is
    not, while the sleep time and the rotation returned are the parsed ones
    in both cases. *)
Theorem check_for_update_decision
    (run : list (list (string * string))) (headers : list (string * string))
    (ts sl rot : Z) :
  Forall (λ h, is_Some (parse_headers h)) run →
  parse_headers headers = Some (ts, sl, rot) →
  let self := (check_all init_client (Response 200 <$> run)).1 in
  timestamp self = last_timestamp run ∧
  ∃ needs_update self',
    check_for_update self (Response 200 headers)
    = (self', Returned needs_update sl rot) ∧
    (needs_update = true ↔ ts ≠ timestamp self) ∧
    (needs_update = true → self' = mkClient ts sl rot) ∧
    (needs_update = false → self' = self).
Proof.
  intros Hrun Hp self. split.
  - subst self. rewrite (check_all_timestamp _ _ Hrun).
    destruct (last run) eqn:Hlast; [done|].
    apply last_None in Hlast as ->. done.
  - rewrite (check_for_update_parsed _ _ _ _ _ Hp).
    destruct (Z.eqb_spec ts (timestamp self)) as [Heq|Hne]; simpl.
    + exists false, self. split_and!; [done|split; [done|congruence]|done|done].
    + exists true, (mkClient ts sl rot). by split_and!.
Qed.

Lemma check_for_update_decision_witness :
  let run := [[("timestamp", "5")]; [("Timestamp", "7"); ("rotate", "2")]] in
  let headers := [("TIMESTAMP", "7"); ("sleep", "3")] in
  Forall (λ h, is_Some (parse_headers h)) run ∧
  parse_headers headers = Some (7, 180, 0) ∧
  timestamp (check_all init_client (Response 200 <$> run)).1 = last_timestamp run ∧
  ∃ needs_update self',
    check_for_update (check_all init_client (Response 200 <$> run)).1
                     (Response 200 headers)
    = (self', Returned needs_update 180 0) ∧
    (needs_update = true ↔ 7 ≠ timestamp (check_all init_client (Response 200 <$> run)).1) ∧
    (needs_update = true → self' = mkClient 7 180 0) ∧
    (needs_update = false → self' = (check_all init_client (Response 200 <$> run)).1).
Proof.
  intros run headers.
  assert (Hrun : Forall (λ h, is_Some (parse_headers h)) run).
  { repeat constructor; vm_compute; eauto. }
  assert (Hp : parse_headers headers = Some (7, 180, 0)) by reflexivity.
  exact (conj Hrun (conj Hp (check_for_update_decision run headers 7 180 0 Hrun Hp))).
Defined.

(** C5. A check whose request raised, or was answered with a status other
    than 200, returns (False, 120, 0) and leaves the client as it was, so
    the next check compares against the timestamp stored before the
    failure. *)
Theorem check_for_update_failure (self : ZivyObrazClient) (r : http_result) :
  failed r →
  check_for_update self r = (self, Returned false 120 0) ∧
  ∀ headers,
    check_for_update (check_for_update self r).1 (Response 200 headers)
    = check_for_update self (Response 200 headers).
Proof.
  intros Hr.
  assert (Hcall : check_for_update self r = (self, Returned false 120 0)).
  { destruct r as [|status_code headers]; [done|]. simpl in Hr.
    unfold check_for_update. by destruct (Z.eqb_spec status_code 200). }
  split; [done|]. intros headers. by rewrite Hcall.
Qed.

Lemma check_for_update_failure_witness :
  failed (Response 503 [("timestamp", "9")]) ∧
  check_for_update (mkClient 4 600 1) (Response 503 [("timestamp", "9")])
  = (mkClient 4 600 1, Returned false 120 0).
Proof.
  assert (Hr : failed (Response 503 [("timestamp", "9")])) by (simpl; lia).
  exact (conj Hr (proj1 (check_for_update_failure (mkClient 4 600 1) _ Hr))).
Defined.

(** The last header that is [sleep] or [sleepseconds] fixes the sleep time
    the header loop ends with. *)
Lemma parse_headers_last_sleep
    (before after : list (string * string)) (name value : string)
    (n ts sl rot : Z) :
  parse_headers (before ++ (name, value) :: after) = Some (ts, sl, rot) →
  forallb (λ hv, negb (sets_sleep hv)) after = true →
  py_int value = Some n →
  (lower name = "sleep" → sl = n * 60) ∧
  (lower name = "sleepseconds" → sl = n).
Proof.
  unfold parse_headers. rewrite parse_loop_app. intros Hp Hafter Hn.
  destruct (parse_loop (0, DEFAULT_SLEEP_TIME, 0) before) as [[[ts0 sl0] rot0]|];
    [|done].
  cbn [mbind option_bind parse_loop] in Hp.
  destruct (header_step (ts0, sl0, rot0) (name, value)) as [[[ts1 sl1] rot1]|]
    eqn:Hstep; [|done].
  cbn [mbind option_bind] in Hp.
  apply (parse_loop_keeps_sleep _ _ _ _ _ _ _ Hafter) in Hp as ->.
  unfold header_step in Hstep. rewrite Hn in Hstep.
  split; intros Hname; rewrite Hname in Hstep; simpl in Hstep; congruence.
Qed.

(** C9. In a response that parses, the last header that is [sleep] or
    [sleepseconds] decides the sleep time the check returns, whatever came
    before it: 60 times its integer value for [sleep], the value itself for
    [sleepseconds]. So of the two, the one met later wins. *)
Theorem sleep_header_precedence
    (self : ZivyObrazClient) (before after : list (string * string))
    (name value : string) (n : Z) :
  is_Some (parse_headers (before ++ (name, value) :: after)) →
  forallb (λ hv, negb (sets_sleep hv)) after = true →
  py_int value = Some n →
  ∃ needs_update rot,
    (lower name = "sleep" →
     (check_for_update self (Response 200 (before ++ (name, value) :: after))).2
     = Returned needs_update (n * 60) rot) ∧
    (lower name = "sleepseconds" →
     (check_for_update self (Response 200 (before ++ (name, value) :: after))).2
     = Returned needs_update n rot).
Proof.
  intros [[[ts sl] rot] Hp] Hafter Hn.
  destruct (parse_headers_last_sleep _ _ _ _ _ _ _ _ Hp Hafter Hn) as [Hmin Hsec].
  exists (negb (ts =? timestamp self)), rot.
  rewrite (check_for_update_parsed _ _ _ _ _ Hp).
  split; intros Hname; [rewrite <- (Hmin Hname)|rewrite <- (Hsec Hname)];
    by destruct (negb (ts =? timestamp self)).
Qed.

Lemma sleep_header_precedence_witness :
  let before := [("Sleep", "2"); ("timestamp", "11")] in
  let after := [("Rotate", "1")] in
  is_Some (parse_headers (before ++ ("SleepSeconds", "45") :: after)) ∧
  forallb (λ hv, negb (sets_sleep hv)) after = true ∧
  py_int "45" = Some 45 ∧
  ∃ needs_update rot,
    (lower "SleepSeconds" = "sleep" →
     (check_for_update init_client
        (Response 200 (before ++ ("SleepSeconds", "45") :: after))).2
     = Returned needs_update (45 * 60) rot) ∧
    (lower "SleepSeconds" = "sleepseconds" →
     (check_for_update init_client
        (Response 200 (before ++ ("SleepSeconds", "45") :: after))).2
     = Returned needs_update 45 rot).
Proof.
  intros before after.
  assert (Hp : is_Some (parse_headers (before ++ ("SleepSeconds", "45") :: after)))
    by (by eexists).
  assert (Hafter : forallb (λ hv, negb (sets_sleep hv)) after = true) by reflexivity.
  assert (Hn : py_int "45" = Some 45) by reflexivity.
  exact (conj Hp (conj Hafter (conj Hn
           (sleep_header_precedence init_client before after _ _ 45 Hp Hafter Hn)))).
Defined.

(** The same two headers in either order: the later one is returned. *)
Example sleep_then_sleepseconds :
  (check_for_update init_client
     (Response 200 [("timestamp", "3"); ("sleep", "2"); ("sleepseconds", "45")])).2
  = Returned true 45 0.
Proof. reflexivity. Qed.

Example sleepseconds_then_sleep :
  (check_for_update init_client
     (Response 200 [("timestamp", "3"); ("sleepseconds", "45"); ("sleep", "2")])).2
  = Returned true 120 0.
Proof. reflexivity. Qed.




(** ** Images *)

Section Images.

Implicit Types (im : Image) (x y v : Z).

Lemma pixel_index_inside im x y :
  inside im x y → pixel_index im x y = Some (Z.to_nat (y * im_width im + x)).
Proof.
  intros [Hx Hy]. unfold pixel_index.
  destruct (Z.ltb_spec x 0); [lia|]. destruct (Z.ltb_spec y 0); [lia|].
  destruct (Z.leb_spec 0 x); [|lia]. destruct (Z.ltb_spec x (im_width im)); [|lia].
  destruct (Z.leb_spec 0 y); [|lia]. destruct (Z.ltb_spec y (im_height im)); [|lia].
  done.
Qed.

Lemma cell_in_range im x y :
  wf_image im → inside im x y →
  (Z.to_nat (y * im_width im + x) < length (im_data im))%nat.
Proof.
  intros (Hw & Hh & ->) [Hx Hy].
  assert (0 ≤ (im_height im - 1 - y) * im_width im)
    by (apply Z.mul_nonneg_nonneg; lia).
  assert (0 ≤ y * im_width im) by (apply Z.mul_nonneg_nonneg; lia).
  lia.
Qed.

Lemma cell_inj im x y x' y' :
  inside im x y → inside im x' y' →
  Z.to_nat (y * im_width im + x) = Z.to_nat (y' * im_width im + x') →
  x = x' ∧ y = y'.
Proof.
  intros [Hx Hy] [Hx' Hy'] Heq.
  assert (0 ≤ y * im_width im) by (apply Z.mul_nonneg_nonneg; lia).
  assert (0 ≤ y' * im_width im) by (apply Z.mul_nonneg_nonneg; lia).
  destruct (Z.lt_trichotomy y y') as [Hlt | [-> | Hgt]]; [|lia|].
  - assert (0 ≤ (y' - y - 1) * im_width im)
      by (apply Z.mul_nonneg_nonneg; lia).
    lia.
  - assert (0 ≤ (y - y' - 1) * im_width im)
      by (apply Z.mul_nonneg_nonneg; lia).
    lia.
Qed.

Lemma getpixel_inside im x y :
  inside im x y → getpixel im x y = im_data im !! Z.to_nat (y * im_width im + x).
Proof. intros Hin. unfold getpixel. by rewrite (pixel_index_inside _ _ _ Hin). Qed.

Lemma putpixel_inside im x y v :
  inside im x y →
  putpixel im x y v
  = Some (mkImage (im_width im) (im_height im)
                  (<[Z.to_nat (y * im_width im + x) := v]> (im_data im))).
Proof. intros Hin. unfold putpixel. by rewrite (pixel_index_inside _ _ _ Hin). Qed.

(** Storing a pixel changes that cell and no other. *)
Lemma getpixel_putpixel im im' x y v x' y' :
  wf_image im → inside im x y → inside im x' y' →
  putpixel im x y v = Some im' →
  getpixel im' x' y'
  = if bool_decide (x' = x ∧ y' = y) then Some v else getpixel im x' y'.
Proof.
  intros Hwf Hin Hin'. rewrite (putpixel_inside _ _ _ _ Hin). intros [= <-].
  rewrite !getpixel_inside by done. cbn [im_data im_width].
  case_bool_decide as Hxy.
  - destruct Hxy as [-> ->]. apply list_lookup_insert_eq. by apply cell_in_range.
  - apply list_lookup_insert_ne. intros Heq.
    destruct (cell_inj _ _ _ _ _ Hin Hin' Heq). naive_solver.
Qed.

Lemma putpixel_wf im im' x y v :
  wf_image im → putpixel im x y v = Some im' →
  wf_image im' ∧ im_width im' = im_width im ∧ im_height im' = im_height im.
Proof.
  intros (Hw & Hh & Hlen). unfold putpixel.
  destruct (pixel_index im x y); [|done]. intros [= <-].
  unfold wf_image; cbn [im_data im_width im_height].
  by rewrite length_insert.
Qed.

Lemma uniform_wf w h fill :
  0 ≤ w → 0 ≤ h → wf_image (mkImage w h (replicate (Z.to_nat (w * h)) fill)).
Proof.
  intros Hw Hh. unfold wf_image. cbn [im_data im_width im_height].
  by rewrite length_replicate.
Qed.

(** What [Image.new] returns when it returns: the uniform image of the
    size asked for, which fits a C [int] each way. *)
Lemma image_new_Some {mem : Memory} w h fill im :
  image_new w h fill = Some im →
  im = mkImage w h (replicate (Z.to_nat (w * h)) fill) ∧
  0 ≤ w ≤ INT_MAX ∧ 0 ≤ h ≤ INT_MAX ∧
  (within_panel w h = true ∨ allocates w h = true).
Proof.
  unfold image_new.
  destruct (Z.leb_spec 0 w); [|done]. destruct (Z.leb_spec 0 h); [|done].
  destruct (Z.leb_spec w INT_MAX); [|done].
  destruct (Z.leb_spec h INT_MAX); [|done]. cbn [andb].
  destruct (within_panel w h || allocates w h) eqn:Hgrant; [|done].
  intros [= <-]. apply orb_true_iff in Hgrant. done.
Qed.

(** Within the panel's size [Image.new] returns, whatever the machine. *)
Lemma image_new_within_panel {mem : Memory} w h fill :
  0 ≤ w → 0 ≤ h → within_panel w h = true →
  image_new w h fill = Some (mkImage w h (replicate (Z.to_nat (w * h)) fill)).
Proof.
  intros Hw Hh Hin. unfold image_new. rewrite Hin.
  apply andb_true_iff in Hin as [Hw' Hh']. apply Z.leb_le in Hw', Hh'.
  unfold DISPLAY_WIDTH, DISPLAY_HEIGHT, INT_MAX in *.
  destruct (Z.leb_spec 0 w); [|lia]. destruct (Z.leb_spec 0 h); [|lia].
  destruct (Z.leb_spec w (2 ^ 31 - 1)); [|lia].
  destruct (Z.leb_spec h (2 ^ 31 - 1)); [|lia]. done.
Qed.

(** When [Image.new] raises. *)
Lemma image_new_None {mem : Memory} w h fill :
  image_new w h fill = None ↔
  w < 0 ∨ h < 0 ∨ INT_MAX < w ∨ INT_MAX < h
  ∨ (within_panel w h = false ∧ allocates w h = false).
Proof.
  unfold image_new.
  destruct (Z.leb_spec 0 w); [|intuition lia].
  destruct (Z.leb_spec 0 h); [|intuition lia].
  destruct (Z.leb_spec w INT_MAX); [|intuition lia].
  destruct (Z.leb_spec h INT_MAX); [|intuition lia]. cbn [andb].
  destruct (within_panel w h), (allocates w h); cbn [orb];
    intuition (try lia; try discriminate).
Qed.

(** [convert('1')] keeps black and white cells as they are. *)
Lemma getpixel_convert_1 im x y v :
  getpixel im x y = Some v → v = COLOR_WHITE ∨ v = COLOR_BLACK →
  getpixel (convert_1 im) x y = Some v.
Proof.
  unfold getpixel, convert_1, pixel_index; cbn [im_data im_width im_height].
  intros Hget Hv. destruct (_ && _); [|done].
  cbn [mbind option_bind] in *. rewrite list_lookup_fmap, Hget.
  by destruct Hv as [-> | ->].
Qed.

End Images.

(** ** The run-length decoders *)

Section RunLength.

Context {mem : Memory}.
Implicit Types (st : Image * Z * Z) (toks : list (Z * nat)).

(** One run: the cells from the cursor on take the colour, as many as the
    run is long or as the canvas has left, and the cursor ends behind
    them. *)
Lemma paint_run_spec count color st :
  canvas st → st.2 < DISPLAY_HEIGHT →
  ∃ st', paint_run count color st = Some st' ∧ canvas st' ∧
    cursor st' = Z.min (cursor st + Z.of_nat count)
                       (DISPLAY_WIDTH * DISPLAY_HEIGHT) ∧
    ∀ q : nat,
      im_data st'.1.1 !! q
      = if bool_decide (Z.to_nat (cursor st) ≤ q < Z.to_nat (cursor st'))%nat
        then Some color else im_data st.1.1 !! q.
Proof.
  revert st. induction count as [|count IH]; intros [[im x] y] Hc Hy.
  - exists (im, x, y). split; [done|]. split; [done|].
    destruct Hc as (_ & _ & _ & Hx & Hy0 & Hcur).
    unfold cursor, DISPLAY_WIDTH, DISPLAY_HEIGHT in *; cbn [snd] in Hy.
    split; [lia|]. intros q. case_bool_decide; [lia|done].
  - destruct Hc as (Hw & Hh & Hlen & Hx & Hy0 & Hcur). cbn [snd] in Hy.
    assert (Hxw : x < DISPLAY_WIDTH) by lia.
    assert (Hin : inside im x y) by (unfold inside; lia).
    cbn [paint_run].
    destruct (Z.ltb_spec x DISPLAY_WIDTH); [|lia].
    destruct (Z.ltb_spec y DISPLAY_HEIGHT); [|lia].
    cbn [andb]. rewrite (putpixel_inside _ _ _ _ Hin), Hw, Hh.
    cbn [mbind option_bind].
    set (p := Z.to_nat (y * DISPLAY_WIDTH + x)).
    set (im1 := mkImage _ _ _).
    assert (Hp : (p < length (im_data im))%nat).
    { subst p. rewrite Hlen. unfold DISPLAY_WIDTH, DISPLAY_HEIGHT in *. lia. }
    assert (Hcell : ∀ q : nat,
               im_data im1 !! q = if bool_decide (q = p) then Some color
                                  else im_data im !! q).
    { intros q. subst im1; cbn [im_data]. case_bool_decide as Hq.
      - subst q. by apply list_lookup_insert_eq.
      - by apply list_lookup_insert_ne. }
    assert (Hlen1 : length (im_data im1)
                    = Z.to_nat (DISPLAY_WIDTH * DISPLAY_HEIGHT)).
    { subst im1; cbn [im_data]. by rewrite length_insert. }
    destruct (Z.leb_spec DISPLAY_WIDTH (x + 1)) as [Hwrap|Hstay];
      [destruct (Z.leb_spec DISPLAY_HEIGHT (y + 1)) as [Hend|Hnext]|].
    + exists (im1, 0, y + 1). split; [done|].
      unfold canvas, cursor; cbn [fst snd].
      unfold DISPLAY_WIDTH, DISPLAY_HEIGHT in *.
      split_and!; try done; try lia.
      intros q. rewrite Hcell. subst p.
      repeat case_bool_decide; try done; lia.
    + destruct (IH (im1, 0, y + 1)) as (st' & Hrun & Hc' & Hcur' & Hdata).
      { unfold canvas. split_and!; try done; lia. }
      { cbn [snd]. lia. }
      exists st'. split; [done|]. split; [done|].
      unfold cursor in Hcur', Hdata |- *; cbn [fst snd] in Hdata |- *.
      destruct st' as [[im' x'] y'].
      unfold DISPLAY_WIDTH, DISPLAY_HEIGHT in *.
      split; [lia|]. intros q. rewrite Hdata, Hcell. subst p.
      repeat case_bool_decide; try done; lia.
    + destruct (IH (im1, x + 1, y)) as (st' & Hrun & Hc' & Hcur' & Hdata).
      { unfold canvas. split_and!; try done; lia. }
      { done. }
      exists st'. split; [done|]. split; [done|].
      unfold cursor in Hcur', Hdata |- *; cbn [fst snd] in Hdata |- *.
      destruct st' as [[im' x'] y'].
      unfold DISPLAY_WIDTH, DISPLAY_HEIGHT in *.
      split; [lia|]. intros q. rewrite Hdata, Hcell. subst p.
      repeat case_bool_decide; try done; lia.
Qed.

Lemma canvas_cursor st :
  canvas st →
  0 ≤ cursor st ≤ DISPLAY_WIDTH * DISPLAY_HEIGHT ∧
  (DISPLAY_HEIGHT ≤ st.2 → cursor st = DISPLAY_WIDTH * DISPLAY_HEIGHT).
Proof.
  destruct st as [[im x] y]. intros (_ & _ & _ & Hx & Hy & Hcur).
  unfold cursor, DISPLAY_WIDTH, DISPLAY_HEIGHT in *; cbn [snd]. lia.
Qed.

Lemma expand_cons t toks :
  expand (t :: toks) = replicate t.2 (_get_color_from_index t.1) ++ expand toks.
Proof. done. Qed.

Lemma length_expand toks : length (expand toks) = run_total toks.
Proof.
  induction toks as [|t toks IH]; [done|].
  rewrite expand_cons, length_app, length_replicate, IH. done.
Qed.

Lemma _get_color_from_index_binary c :
  _get_color_from_index c = COLOR_WHITE ∨ _get_color_from_index c = COLOR_BLACK.
Proof. unfold _get_color_from_index. repeat case_match; auto. Qed.

Lemma expand_binary toks :
  Forall (λ v, v = COLOR_WHITE ∨ v = COLOR_BLACK) (expand toks).
Proof.
  induction toks as [|t toks IH]; [by constructor|].
  rewrite expand_cons. apply Forall_app. split; [|done].
  apply Forall_replicate, _get_color_from_index_binary.
Qed.

(** The whole loop: the cells from the cursor on take the colours the
    tokens expand to, until the tokens or the canvas run out. *)
Lemma rle_loop_spec toks st :
  canvas st →
  ∃ st', rle_loop toks st = Some st' ∧ canvas st' ∧
    cursor st' = Z.min (cursor st + Z.of_nat (run_total toks))
                       (DISPLAY_WIDTH * DISPLAY_HEIGHT) ∧
    ∀ q : nat,
      im_data st'.1.1 !! q
      = if bool_decide (Z.to_nat (cursor st) ≤ q < Z.to_nat (cursor st'))%nat
        then expand toks !! (q - Z.to_nat (cursor st))%nat
        else im_data st.1.1 !! q.
Proof.
  revert st. induction toks as [|t toks IH]; intros st Hc.
  - exists st. destruct (canvas_cursor _ Hc) as [Hpos _].
    split; [done|]. split; [done|]. split; [cbn; lia|].
    intros q. case_bool_decide; [lia|done].
  - cbn [rle_loop]. destruct (canvas_cursor _ Hc) as [Hpos Hlast].
    destruct (Z.ltb_spec st.2 DISPLAY_HEIGHT) as [Hy|Hy].
    + destruct (paint_run_spec t.2 (_get_color_from_index t.1) st Hc Hy)
        as (st1 & -> & Hc1 & Hcur1 & Hdata1).
      cbn [mbind option_bind].
      destruct (IH st1 Hc1) as (st' & -> & Hc' & Hcur' & Hdata').
      exists st'. split; [done|]. split; [done|].
      assert (Htot : run_total (t :: toks) = (t.2 + run_total toks)%nat) by done.
      split; [lia|]. intros q. rewrite Hdata', Hdata1, expand_cons.
      repeat case_bool_decide; try done; try lia.
      * rewrite lookup_app_r by (rewrite length_replicate; lia).
        rewrite length_replicate. f_equal. lia.
      * rewrite lookup_app_l by (rewrite length_replicate; lia).
        symmetry. apply lookup_replicate_2. lia.
    + exists st. split; [done|]. split; [done|]. split; [lia|].
      intros q. case_bool_decide; [lia|done].
Qed.

(** Both [while] loops are [rle_loop] on the tokens of their layout. *)
Lemma z1_loop_tokens unread st :
  z1_loop unread st = rle_loop (z1_tokens unread) st.
Proof.
  enough (H : ∀ st, z1_loop unread st = rle_loop (z1_tokens unread) st
              ∧ ∀ d, z1_loop (d :: unread) st
                     = rle_loop (z1_tokens (d :: unread)) st) by apply H.
  clear st. induction unread as [|d1 unread IH]; intros st; [done|].
  split; [apply IH|]. intros d0. cbn [z1_loop z1_tokens rle_loop fst snd].
  destruct (st.2 <? DISPLAY_HEIGHT); [|done].
  destruct (paint_run _ _ st) as [st'|]; [|done].
  cbn [mbind option_bind]. apply IH.
Qed.

Lemma z2_loop_tokens unread st :
  z2_loop unread st = rle_loop (z2_tokens unread) st.
Proof.
  revert st. induction unread as [|d unread IH]; intros st; [done|].
  cbn [z2_loop z2_tokens fmap list_fmap rle_loop fst snd].
  destruct (st.2 <? DISPLAY_HEIGHT); [|done].
  destruct (paint_run _ _ st) as [st'|]; [|done].
  cbn [mbind option_bind]. apply IH.
Qed.

Lemma blank_canvas_sound : canvas (blank_canvas, 0, 0).
Proof.
  unfold canvas, blank_canvas; cbn [im_width im_height im_data].
  rewrite length_replicate. unfold DISPLAY_WIDTH, DISPLAY_HEIGHT.
  split_and!; try done. left. lia.
Qed.

(** A decoder whose loop is [rle_loop] on some tokens: it returns an
    image, the loop leaves the cursor behind the last cell painted, and
    each cell holds the colour the tokens give its raster position, white
    where they give none. *)
Lemma decode_rle_spec loop (tokens : list byte → list (Z * nat)) data :
  (∀ unread st, loop unread st = rle_loop (tokens unread) st) →
  ∃ st, loop (drop 2 data) (blank_canvas, 0, 0) = Some st ∧
    cursor st = Z.min (Z.of_nat (run_total (tokens (drop 2 data))))
                      (DISPLAY_WIDTH * DISPLAY_HEIGHT) ∧
    canvas st ∧
    decode_rle loop data = Some (convert_1 st.1.1) ∧
    im_width (convert_1 st.1.1) = DISPLAY_WIDTH ∧
    im_height (convert_1 st.1.1) = DISPLAY_HEIGHT ∧
    ∀ x y, 0 ≤ x < DISPLAY_WIDTH → 0 ≤ y < DISPLAY_HEIGHT →
      getpixel (convert_1 st.1.1) x y
      = Some (default COLOR_WHITE
                (expand (tokens (drop 2 data)) !! Z.to_nat (y * DISPLAY_WIDTH + x))).
Proof.
  intros Hloop. set (toks := tokens (drop 2 data)).
  destruct (rle_loop_spec toks _ blank_canvas_sound)
    as (st & Hrun & Hc & Hcur & Hdata).
  exists st. rewrite Hloop. fold toks. split; [done|].
  change (cursor (blank_canvas, 0, 0)) with 0 in Hcur, Hdata.
  split; [by rewrite Hcur|]. split; [done|].
  destruct st as [[im cx] cy]; cbn [fst snd] in *.
  destruct Hc as (Hw & Hh & Hlen & _).
  split.
  { unfold decode_rle.
    rewrite (image_new_within_panel DISPLAY_WIDTH DISPLAY_HEIGHT) by done.
    cbn [mbind option_bind]. rewrite Hloop. fold toks.
    fold blank_canvas. by rewrite Hrun. }
  split; [done|]. split; [done|]. intros x y Hx Hy.
  assert (Hin : inside im x y) by (unfold inside; lia).
  assert (Hq : (Z.to_nat (y * DISPLAY_WIDTH + x)
                < Z.to_nat (DISPLAY_WIDTH * DISPLAY_HEIGHT))%nat)
    by (unfold DISPLAY_WIDTH, DISPLAY_HEIGHT in *; lia).
  assert (Hget : getpixel im x y
            = Some (default COLOR_WHITE
                      (expand toks !! Z.to_nat (y * DISPLAY_WIDTH + x)))).
  { rewrite (getpixel_inside _ _ _ Hin), Hw, Hdata.
    pose proof (length_expand toks) as Hlen_toks.
    replace (Z.to_nat (y * DISPLAY_WIDTH + x) - Z.to_nat 0)%nat
      with (Z.to_nat (y * DISPLAY_WIDTH + x)) by lia.
    case_bool_decide as Hrange.
    - destruct (lookup_lt_is_Some_2 (expand toks)
                  (Z.to_nat (y * DISPLAY_WIDTH + x))) as [v Hv]; [lia|].
      by rewrite Hv.
    - rewrite (lookup_ge_None_2 (expand toks)) by lia.
      cbn [default]. unfold blank_canvas; cbn [im_data].
      by apply lookup_replicate_2. }
  apply getpixel_convert_1; [done|].
  destruct (expand toks !! _) as [v|] eqn:Hv; cbn [default]; [|by left].
  pose proof (expand_binary toks) as Hbin.
  rewrite Forall_lookup in Hbin. by apply (Hbin _ _ Hv).
Qed.

End RunLength.

(** C3. A Z1 payload always decodes, to the image of the canvas the loop
    ends with. When its run lengths sum to less than 800 * 480 the cursor
    stops at that sum and every cell from there on is white. When they sum
    to more, the cursor stops at (0, 480), just behind pixel (799, 479), and
    every cell, (799, 479) and (0, 0) included, holds the colour the runs
    give its own raster position: what exceeds the canvas is dropped, not
    painted over the start. *)
Theorem decode_rle_z1_canvas_bounds {mem : Memory} (data : list byte) :
  ∃ st,
    z1_loop (drop 2 data) (blank_canvas, 0, 0) = Some st ∧
    decode_rle_z1 data = Some (convert_1 st.1.1) ∧
    (Z.of_nat (run_total (z1_tokens (drop 2 data))) < 800 * 480 →
     cursor st = Z.of_nat (run_total (z1_tokens (drop 2 data))) ∧
     ∀ x y, 0 ≤ x < 800 → 0 ≤ y < 480 → cursor st ≤ y * 800 + x →
       getpixel (convert_1 st.1.1) x y = Some COLOR_WHITE) ∧
    (800 * 480 < Z.of_nat (run_total (z1_tokens (drop 2 data))) →
     st.1.2 = 0 ∧ st.2 = 480 ∧
     ∀ x y, 0 ≤ x < 800 → 0 ≤ y < 480 →
       getpixel (convert_1 st.1.1) x y
       = expand (z1_tokens (drop 2 data)) !! Z.to_nat (y * 800 + x)).
Proof.
  destruct (decode_rle_spec z1_loop z1_tokens data z1_loop_tokens)
    as (st & Hrun & Hcur & Hc & Hdec & _ & _ & Hpx).
  exists st. split; [done|]. split; [done|].
  pose proof (length_expand (z1_tokens (drop 2 data))) as Hlen.
  change DISPLAY_WIDTH with 800 in Hpx, Hcur.
  change DISPLAY_HEIGHT with 480 in Hpx, Hcur.
  split.
  - intros Hshort. split; [lia|]. intros x y Hx Hy Hpos.
    rewrite (Hpx x y Hx Hy), lookup_ge_None_2; [done|lia].
  - intros Hlong. destruct st as [[im cx] cy].
    destruct Hc as (_ & _ & _ & Hcx & Hcy & Hcases).
    unfold cursor, DISPLAY_WIDTH, DISPLAY_HEIGHT in *; cbn [fst snd] in *.
    split; [lia|]. split; [lia|]. intros x y Hx Hy.
    rewrite (Hpx x y Hx Hy).
    destruct (lookup_lt_is_Some_2 (expand (z1_tokens (drop 2 data)))
                (Z.to_nat (y * 800 + x))) as [v Hv]; [lia|].
    by rewrite Hv.
Qed.

(** The tokens of the example: colour index 1 with run 5, then colour
    index 3 with run 2; both indices map to black. *)
Lemma z2_example_tokens :
  z2_tokens (drop 2 z2_example) = [(1, 5%nat); (3, 2%nat)] ∧
  expand (z2_tokens (drop 2 z2_example)) = replicate 7 COLOR_BLACK.
Proof. split; reflexivity. Qed.

(** C2, as the code has it. The decoded example has 7 black pixels, (0, 0)
    to (6, 0), and every other cell of the 800 x 480 canvas is white. *)
Theorem decode_rle_z2_example {mem : Memory} :
  ∃ image,
    decode_rle_z2 z2_example = Some image ∧
    im_width image = 800 ∧ im_height image = 480 ∧
    ∀ x y, 0 ≤ x < 800 → 0 ≤ y < 480 →
      getpixel image x y
      = Some (if (y =? 0) && (x <? 7) then COLOR_BLACK else COLOR_WHITE).
Proof.
  destruct (decode_rle_spec z2_loop z2_tokens z2_example z2_loop_tokens)
    as (st & _ & _ & _ & Hdec & Hw & Hh & Hpx).
  exists (convert_1 st.1.1). split; [done|]. split; [done|]. split; [done|].
  intros x y Hx Hy. rewrite (Hpx x y Hx Hy).
  rewrite (proj2 z2_example_tokens). change DISPLAY_WIDTH with 800.
  destruct (Z.eqb_spec y 0) as [->|Hy0]; [destruct (Z.ltb_spec x 7) as [Hx7|Hx7]|];
    cbn [andb].
  - rewrite lookup_replicate_2 by lia. done.
  - rewrite (proj1 (lookup_replicate_None _ _ _)) by lia. done.
  - rewrite (proj1 (lookup_replicate_None _ _ _)) by lia. done.
Qed.

(** C2, as stated, fails on the first pixel: the five pixels of the first
    run are black, not white. *)
Lemma decode_rle_z2_example_first_run_black :
  ∃ image,
    decode_rle_z2 (mem := no_spare_memory) z2_example = Some image ∧
    getpixel image 0 0 = Some COLOR_BLACK ∧
    getpixel image 1 0 = Some COLOR_BLACK ∧
    getpixel image 2 0 = Some COLOR_BLACK ∧
    getpixel image 3 0 = Some COLOR_BLACK ∧
    getpixel image 4 0 = Some COLOR_BLACK ∧
    COLOR_BLACK ≠ COLOR_WHITE.
Proof.
  destruct (decode_rle_spec (mem := no_spare_memory)
              z2_loop z2_tokens z2_example z2_loop_tokens)
    as (st & _ & _ & _ & Hdec & _ & _ & Hpx).
  exists (convert_1 st.1.1). split; [done|].
  rewrite (proj2 z2_example_tokens) in Hpx.
  split_and!; try (rewrite Hpx by (unfold DISPLAY_WIDTH, DISPLAY_HEIGHT; lia);
                   reflexivity).
  done.
Qed.

(** The two header bytes of the example read 0x5A31 as a little-endian
    word, so the dispatch does not hand it to [decode_rle_z2]. *)
Lemma z2_example_not_dispatched {mem : Memory} :
  decode_payload z2_example = inl UnknownFormat.
Proof. reflexivity. Qed.

(** ** The BMP decoder *)

Section Loops.

Context {S : Type}.
Implicit Types (body : Z → S → option S) (s : S).

(** A [for] loop whose body keeps an invariant, stated on the items
    already visited, runs to its end and establishes it for all. *)
Lemma for_each_invariant (I : list Z → S → Prop) xs body s :
  I [] s →
  (∀ visited x s, I visited s → x ∈ xs →
     ∃ s', body x s = Some s' ∧ I (visited ++ [x]) s') →
  ∃ s', for_each xs body s = Some s' ∧ I xs s'.
Proof.
  intros Hinit Hstep.
  enough (Hgen : ∀ rest visited s, xs = visited ++ rest → I visited s →
                   ∃ s', for_each rest body s = Some s' ∧ I xs s')
    by (apply (Hgen xs []); done).
  induction rest as [|x rest IH]; intros visited s0 Hxs Hvis.
  - exists s0. rewrite app_nil_r in Hxs. by subst.
  - destruct (Hstep visited x s0 Hvis) as (s1 & Hbody & Hvis1).
    { rewrite Hxs. apply elem_of_app. right. by left. }
    cbn [for_each]. rewrite Hbody. cbn [mbind option_bind].
    apply (IH (visited ++ [x])); [|done]. by rewrite <- app_assoc.
Qed.

(** A loop whose body changes nothing returns what it was given. *)
Lemma for_each_skip xs body s :
  (∀ x s, body x s = Some s) → for_each xs body s = Some s.
Proof.
  intros Hbody. induction xs as [|x xs IH]; [done|].
  cbn [for_each]. rewrite Hbody. cbn [mbind option_bind]. apply IH.
Qed.

End Loops.

Section BmpRows.

Implicit Types (im : Image) (px : Z → option (option Z)).

Lemma visited_snoc (visited : list Z) (x col y y' : Z) :
  bool_decide (y' = y ∧ x ∈ visited ++ [col])
  = bool_decide (y' = y ∧ x ∈ visited) || bool_decide (x = col ∧ y' = y).
Proof.
  rewrite <- bool_decide_or. apply bool_decide_ext.
  rewrite elem_of_app, list_elem_of_singleton. tauto.
Qed.

(** One row: the cells of line [y] for which the body yields a value take
    it, every other cell keeps what it held. *)
Lemma store_row_spec px y im :
  wf_image im → 0 ≤ y < im_height im →
  (∀ col, 0 ≤ col < im_width im → is_Some (px col)) →
  ∃ im', store_row px (im_width im) y im = Some im' ∧ wf_image im' ∧
    im_width im' = im_width im ∧ im_height im' = im_height im ∧
    ∀ x y', inside im x y' →
      getpixel im' x y'
      = match px x with
        | Some (Some v) => if bool_decide (y' = y) then Some v else getpixel im x y'
        | _ => getpixel im x y'
        end.
Proof.
  intros Hwf Hy Hpx. unfold store_row, for_range.
  set (I := λ (visited : list Z) im',
         wf_image im' ∧ im_width im' = im_width im ∧
         im_height im' = im_height im ∧
         ∀ x y', inside im x y' →
           getpixel im' x y'
           = match px x with
             | Some (Some v) =>
                 if bool_decide (y' = y ∧ x ∈ visited) then Some v
                 else getpixel im x y'
             | _ => getpixel im x y'
             end).
  destruct (for_each_invariant I (seqZ 0 (im_width im))
              (λ col image, v ← px col;
                 match v with
                 | Some c => putpixel image col y c
                 | None => Some image
                 end) im) as (im' & Hrun & Hwf' & Hw' & Hh' & Hget).
  - split_and!; try done. intros x y' _.
    destruct (px x) as [[v|]|]; try done.
    rewrite bool_decide_eq_false_2; [done|].
    intros [_ Hd]. by apply elem_of_nil in Hd.
  - intros visited col im1 (Hwf1 & Hw1 & Hh1 & Hget1) Hcol.
    apply elem_of_seqZ in Hcol.
    destruct (Hpx col) as [o Ho]; [lia|]. rewrite Ho. cbn [mbind option_bind].
    destruct o as [c|].
    + assert (Hin1 : inside im1 col y) by (unfold inside; lia).
      exists (mkImage (im_width im1) (im_height im1)
                (<[Z.to_nat (y * im_width im1 + col) := c]> (im_data im1))).
      pose proof (putpixel_inside im1 col y c Hin1) as Hput.
      destruct (putpixel_wf _ _ _ _ _ Hwf1 Hput) as (Hwf2 & Hw2 & Hh2).
      split; [done|]. split; [done|]. split; [congruence|]. split; [congruence|].
      intros x y' Hin.
      assert (Hin' : inside im1 x y') by (unfold inside in *; lia).
      rewrite (getpixel_putpixel im1 _ col y c x y' Hwf1 Hin1 Hin' Hput).
      rewrite (Hget1 x y' Hin), visited_snoc.
      destruct (bool_decide (x = col ∧ y' = y)) eqn:Hhere.
      * apply bool_decide_eq_true in Hhere as [-> ->].
        by rewrite Ho, orb_true_r.
      * by rewrite orb_false_r.
    + exists im1. split; [done|]. split; [done|]. split; [done|]. split; [done|].
      intros x y' Hin. rewrite (Hget1 x y' Hin), visited_snoc.
      destruct (px x) as [[v|]|] eqn:Hx; try done.
      destruct (bool_decide (x = col ∧ y' = y)) eqn:Hhere;
        [|by rewrite orb_false_r].
      apply bool_decide_eq_true in Hhere as [-> ->]. congruence.
  - exists im'. split; [done|]. split; [done|]. split; [done|]. split; [done|].
    intros x y' Hin. rewrite (Hget x y' Hin).
    destruct (px x) as [[v|]|]; try done.
    destruct Hin as [Hx _].
    rewrite (bool_decide_ext (y' = y ∧ x ∈ seqZ 0 (im_width im)) (y' = y)); [done|].
    rewrite elem_of_seqZ. intuition lia.
Qed.

End BmpRows.

Section BmpPixels.

Implicit Types (data : list byte) (palette : list Z) (h : bmp_header).

Lemma byte_val_range (b : byte) : 0 ≤ byte_val b < 256.
Proof. unfold byte_val. pose proof (Byte.to_N_bounded b). lia. Qed.

(** An index the bounds test lets through is read without an error. *)
Lemma py_getitem_inside {A} (l : list A) (i : Z) :
  0 ≤ i < py_len l → is_Some (py_getitem l i).
Proof.
  intros Hi. unfold py_getitem.
  destruct (Z.leb_spec 0 i); [|lia]. destruct (Z.ltb_spec i (py_len l)); [|lia].
  apply lookup_lt_is_Some_2. unfold py_len in Hi. lia.
Qed.

Lemma py_getitem_elem {A} (l : list A) (i : Z) (a : A) :
  0 ≤ i → py_getitem l i = Some a → a ∈ l.
Proof.
  intros Hi. unfold py_getitem.
  destruct (Z.leb_spec 0 i); [|lia].
  destruct (Z.ltb_spec i (py_len l)); cbn [andb].
  - apply list_elem_of_lookup_2.
  - destruct (Z.ltb_spec i 0); [lia|]. by rewrite andb_false_r.
Qed.

Lemma palette_lookup_spec palette pn :
  0 ≤ pn → Forall (λ v, binary v) palette →
  ∃ v, palette_lookup palette pn = Some v ∧ binary v.
Proof.
  intros Hpn Hpal. unfold palette_lookup.
  destruct (Z.ltb_spec pn (py_len palette)).
  - destruct (py_getitem_inside palette pn) as [v Hv]; [lia|].
    exists v. split; [done|].
    rewrite Forall_forall in Hpal. apply Hpal.
    by apply (py_getitem_elem palette pn).
  - exists COLOR_WHITE. by split; [|left].
Qed.

Lemma bmp_px_1_spec data palette row_offset col :
  0 ≤ row_offset → 0 ≤ col → Forall (λ v, binary v) palette →
  ∃ o, bmp_px_1 data palette row_offset col = Some o ∧
    (∀ v, o = Some v → binary v) ∧
    (py_len data ≤ row_offset + col `div` 8 → o = None).
Proof.
  intros Hoff Hcol Hpal. unfold bmp_px_1.
  assert (0 ≤ col `div` 8) by (apply Z.div_pos; lia).
  destruct (Z.ltb_spec (row_offset + col `div` 8) (py_len data)) as [Hin|Hout].
  - destruct (py_getitem_inside data (row_offset + col `div` 8)) as [d ->]; [lia|].
    cbn [mbind option_bind].
    destruct (palette_lookup_spec palette
                (Z.land (Z.shiftr (byte_val d) (7 - col `mod` 8)) 1))
      as (v & -> & Hv); [apply Z.land_nonneg; lia|done|].
    exists (Some v). split; [done|]. split; [by intros ? [= <-]|lia].
  - exists None. by split_and!.
Qed.

Lemma bmp_px_4_spec data palette row_offset col :
  0 ≤ row_offset → 0 ≤ col → Forall (λ v, binary v) palette →
  ∃ o, bmp_px_4 data palette row_offset col = Some o ∧
    (∀ v, o = Some v → binary v) ∧
    (py_len data ≤ row_offset + col `div` 2 → o = None).
Proof.
  intros Hoff Hcol Hpal. unfold bmp_px_4.
  assert (0 ≤ col `div` 2) by (apply Z.div_pos; lia).
  destruct (Z.ltb_spec (row_offset + col `div` 2) (py_len data)) as [Hin|Hout].
  - destruct (py_getitem_inside data (row_offset + col `div` 2)) as [d ->]; [lia|].
    cbn [mbind option_bind].
    destruct (palette_lookup_spec palette
                (if col `mod` 2 =? 0
                 then Z.land (Z.shiftr (byte_val d) 4) 0x0F
                 else Z.land (byte_val d) 0x0F))
      as (v & -> & Hv); [|done|].
    { destruct (col `mod` 2 =? 0); apply Z.land_nonneg; lia. }
    exists (Some v). split; [done|]. split; [by intros ? [= <-]|lia].
  - exists None. by split_and!.
Qed.

Lemma bmp_px_8_spec data palette row_offset col :
  0 ≤ row_offset → 0 ≤ col → Forall (λ v, binary v) palette →
  ∃ o, bmp_px_8 data palette row_offset col = Some o ∧
    (∀ v, o = Some v → binary v) ∧
    (py_len data ≤ row_offset + col → o = None).
Proof.
  intros Hoff Hcol Hpal. unfold bmp_px_8.
  destruct (Z.ltb_spec (row_offset + col) (py_len data)) as [Hin|Hout].
  - destruct (py_getitem_inside data (row_offset + col)) as [d ->]; [lia|].
    cbn [mbind option_bind].
    destruct (palette_lookup_spec palette (byte_val d))
      as (v & -> & Hv); [apply byte_val_range|done|].
    exists (Some v). split; [done|]. split; [by intros ? [= <-]|lia].
  - exists None. by split_and!.
Qed.

Lemma bmp_px_16_spec data compression row_offset col :
  0 ≤ row_offset → 0 ≤ col →
  ∃ o, bmp_px_16 data compression row_offset col = Some o ∧
    (∀ v, o = Some v → binary v) ∧
    (py_len data ≤ row_offset + col * 2 + 1 → o = None).
Proof.
  intros Hoff Hcol. unfold bmp_px_16.
  destruct (Z.ltb_spec (row_offset + col * 2 + 1) (py_len data)) as [Hin|Hout].
  - destruct (py_getitem_inside data (row_offset + col * 2)) as [d0 ->]; [lia|].
    destruct (py_getitem_inside data (row_offset + col * 2 + 1)) as [d1 ->]; [lia|].
    cbn [fmap option_fmap option_map mbind option_bind].
    destruct (compression =? 0); cbn beta iota;
      (eexists; split; [reflexivity|]; split; [|lia]);
      intros v [= <-]; case_match; auto.
  - exists None. by split_and!.
Qed.

Lemma bmp_px_rgb_spec data bytes_per_pixel row_offset col :
  0 ≤ row_offset → 0 ≤ col → 0 ≤ bytes_per_pixel →
  ∃ o, bmp_px_rgb data bytes_per_pixel row_offset col = Some o ∧
    (∀ v, o = Some v → binary v) ∧
    (py_len data ≤ row_offset + col * bytes_per_pixel + 2 → o = None).
Proof.
  intros Hoff Hcol Hbpp. unfold bmp_px_rgb.
  assert (0 ≤ col * bytes_per_pixel) by (apply Z.mul_nonneg_nonneg; lia).
  destruct (Z.ltb_spec (row_offset + col * bytes_per_pixel + 2) (py_len data))
    as [Hin|Hout].
  - destruct (py_getitem_inside data (row_offset + col * bytes_per_pixel))
      as [d0 ->]; [lia|].
    destruct (py_getitem_inside data (row_offset + col * bytes_per_pixel + 1))
      as [d1 ->]; [lia|].
    destruct (py_getitem_inside data (row_offset + col * bytes_per_pixel + 2))
      as [d2 ->]; [lia|].
    cbn [fmap option_fmap option_map mbind option_bind].
    eexists; split; [reflexivity|]; split; [|lia].
    intros v [= <-]; case_match; auto.
  - exists None. by split_and!.
Qed.

Lemma unpack_H_range bs u : unpack_H bs = Some u → 0 ≤ u < 65536.
Proof.
  destruct bs as [|b0 [|b1 [|]]]; try done. intros [= <-].
  pose proof (byte_val_range b0). pose proof (byte_val_range b1). lia.
Qed.

Lemma unpack_I_range bs u : unpack_I bs = Some u → 0 ≤ u < 2 ^ 32.
Proof.
  destruct bs as [|b0 [|b1 [|b2 [|b3 [|]]]]]; try done. intros [= <-].
  pose proof (byte_val_range b0). pose proof (byte_val_range b1).
  pose proof (byte_val_range b2). pose proof (byte_val_range b3). lia.
Qed.

(** What the fields of a header that was read can be. *)
Lemma read_header_fields data h :
  read_header data = Some h →
  unpack_H (py_slice data 0 2) = Some (bh_signature h) ∧
  0 ≤ bh_image_offset h ∧ 0 ≤ bh_header_size h ∧
  0 ≤ bh_width h ∧ 0 ≤ bh_depth h.
Proof.
  unfold read_header. intros Hread.
  destruct (unpack_H (py_slice data 0 2)) as [signature|]; [|done].
  destruct (unpack_I (py_slice data 2 6)) as [file_size|]; [|done].
  destruct (unpack_I (py_slice data 10 14)) as [image_offset|] eqn:Hoff; [|done].
  destruct (unpack_I (py_slice data 14 18)) as [header_size|] eqn:Hhs; [|done].
  destruct (unpack_I (py_slice data 18 22)) as [width|] eqn:Hw; [|done].
  destruct (unpack_i (py_slice data 22 26)) as [height|]; [|done].
  destruct (unpack_H (py_slice data 26 28)) as [planes|]; [|done].
  destruct (unpack_H (py_slice data 28 30)) as [depth|] eqn:Hd; [|done].
  destruct (unpack_I (py_slice data 30 34)) as [compression|]; [|done].
  cbn [mbind option_bind] in Hread. injection Hread as <-.
  cbn [bh_signature bh_image_offset bh_header_size bh_width bh_depth].
  apply unpack_I_range in Hoff, Hhs, Hw. apply unpack_H_range in Hd.
  split; [done|]. lia.
Qed.

Lemma bmp_row_size_nonneg width depth :
  0 ≤ width → 0 ≤ depth → 0 ≤ bmp_row_size width depth.
Proof.
  intros Hw Hd. unfold bmp_row_size.
  assert (0 ≤ width * depth) by (apply Z.mul_nonneg_nonneg; lia).
  destruct (depth <? 8).
  - assert (0 ≤ (width * depth + 31) `div` 32) by (apply Z.div_pos; lia). lia.
  - assert (0 ≤ (width * depth) `div` 8) by (apply Z.div_pos; lia).
    assert (0 ≤ ((width * depth) `div` 8 + 3) `div` 4) by (apply Z.div_pos; lia).
    lia.
Qed.

Lemma bmp_row_offset_nonneg data h row :
  read_header data = Some h → 0 ≤ row → 0 ≤ bmp_row_offset h row.
Proof.
  intros (_ & Hoff & _ & Hw & Hd)%read_header_fields Hrow. unfold bmp_row_offset.
  pose proof (bmp_row_size_nonneg _ _ Hw Hd).
  assert (0 ≤ row * bmp_row_size (bh_width h) (bh_depth h))
    by (apply Z.mul_nonneg_nonneg; lia).
  lia.
Qed.

Lemma palette_entry_spec data palette_offset i :
  0 ≤ palette_offset → 0 ≤ i →
  ∃ v, palette_entry data palette_offset i = Some v ∧ binary v.
Proof.
  intros Hoff Hi. unfold palette_entry.
  destruct (Z.leb_spec (palette_offset + i * 4 + 4) (py_len data)) as [Hin|Hout].
  - unfold py_slice.
    replace (Z.to_nat (palette_offset + i * 4 + 4 - (palette_offset + i * 4)))
      with 4%nat by lia.
    set (bs := take 4 (drop (Z.to_nat (palette_offset + i * 4)) data)).
    assert (Hlen : length bs = 4%nat).
    { subst bs. rewrite length_take, length_drop. unfold py_len in Hin. lia. }
    destruct bs as [|b [|g [|r [|a [|]]]]]; try done.
    cbn [unpack_BBBB mbind option_bind]. eexists; split; [reflexivity|].
    case_match; auto.
  - exists COLOR_WHITE. by split; [|left].
Qed.

(** The palette is always built, of black and white entries. *)
Lemma read_palette_spec data header_size depth :
  0 ≤ header_size →
  ∃ palette, read_palette data header_size depth = Some palette ∧
    Forall (λ v, binary v) palette.
Proof.
  intros Hhs. unfold read_palette. destruct (depth <=? 8).
  - set (f := palette_entry data (14 + header_size)).
    assert (Hf : ∀ i, i ∈ seqZ 0 (Z.shiftl 1 depth) →
                   ∃ v, f i = Some v ∧ binary v).
    { intros i Hi%elem_of_seqZ. apply palette_entry_spec; lia. }
    destruct (mapM_is_Some_2 f (seqZ 0 (Z.shiftl 1 depth))) as [palette Hpal].
    { apply Forall_forall. intros i Hi. destruct (Hf i Hi) as (v & Hv & _).
      by exists v. }
    exists palette. split; [done|].
    apply mapM_Some_1 in Hpal. apply Forall_lookup. intros k v Hk.
    destruct (Forall2_lookup_r _ _ _ _ _ Hpal Hk) as (i & Hi & Hfi).
    apply list_elem_of_lookup_2 in Hi. destruct (Hf i Hi) as (v' & Hv' & Hbin).
    congruence.
  - exists []. by split; [|constructor].
Qed.

Lemma bmp_palette_spec data h :
  read_header data = Some h →
  read_palette data (bh_header_size h) (bh_depth h) = Some (bmp_palette data h) ∧
  Forall (λ v, binary v) (bmp_palette data h).
Proof.
  intros (_ & _ & Hhs & _)%read_header_fields. unfold bmp_palette.
  destruct (read_palette_spec data (bh_header_size h) (bh_depth h) Hhs)
    as (palette & -> & Hbin). done.
Qed.

(** The body chosen for a row reads inside the payload, yields black or
    white, and yields nothing for a pixel whose last byte lies behind the
    end of the payload. *)
Lemma bmp_px_spec data h row col :
  read_header data = Some h → 0 ≤ row → 0 ≤ col →
  ∃ o, bmp_px data h row col = Some o ∧
    (∀ v, o = Some v → binary v) ∧
    (py_len data ≤ bmp_last_byte h row col → o = None).
Proof.
  intros Hread Hrow Hcol.
  pose proof (bmp_row_offset_nonneg data h row Hread Hrow) as Hoff.
  destruct (bmp_palette_spec data h Hread) as [_ Hpal].
  destruct (read_header_fields data h Hread) as (_ & _ & _ & _ & Hd).
  unfold bmp_px, bmp_last_byte.
  destruct (bh_depth h =? 1); [by apply bmp_px_1_spec|].
  destruct (bh_depth h =? 4); [by apply bmp_px_4_spec|].
  destruct (bh_depth h =? 8); [by apply bmp_px_8_spec|].
  destruct (bh_depth h =? 16); [by apply bmp_px_16_spec|].
  destruct ((bh_depth h =? 24) || (bh_depth h =? 32)).
  - apply bmp_px_rgb_spec; [done..|]. apply Z.div_pos; lia.
  - exists None. by split_and!.
Qed.

End BmpPixels.

(** ** The decoder against the specification of the pixel array *)

Section BmpReference.

Implicit Types (data : list byte) (h : bmp_header).

(** At the depths of the decoder its row size is the stride of the
    specification. *)
Lemma spec_stride_eq width depth :
  supported_depth depth = true →
  spec_stride width depth = bmp_row_size width depth.
Proof.
  unfold supported_depth, spec_stride, bmp_row_size, ceil_div.
  destruct (Z.eqb_spec depth 1) as [->|];
    [intros _; cbn; Z.div_mod_to_equations; lia|].
  destruct (Z.eqb_spec depth 4) as [->|];
    [intros _; cbn; Z.div_mod_to_equations; lia|].
  destruct (Z.eqb_spec depth 8) as [->|];
    [intros _; cbn; Z.div_mod_to_equations; lia|].
  destruct (Z.eqb_spec depth 16) as [->|];
    [intros _; cbn; Z.div_mod_to_equations; lia|].
  destruct (Z.eqb_spec depth 24) as [->|];
    [intros _; cbn; Z.div_mod_to_equations; lia|].
  destruct (Z.eqb_spec depth 32) as [->|];
    [intros _; cbn; Z.div_mod_to_equations; lia|done].
Qed.

(** The bytes of the specification are those the decoder reads. *)
Lemma payload_byte_getitem data i :
  0 ≤ i →
  payload_byte data i
  = if i <? py_len data then byte_val <$> py_getitem data i else None.
Proof.
  intros Hi. unfold payload_byte, py_getitem.
  destruct (Z.ltb_spec i 0); [lia|]. destruct (Z.leb_spec 0 i); [|lia].
  destruct (Z.ltb_spec i (py_len data)) as [Hin|Hout]; cbn [andb]; [done|].
  rewrite lookup_ge_None_2; [done|]. unfold py_len in Hout. lia.
Qed.

Lemma payload_byte_Some data i d :
  0 ≤ i → data !! Z.to_nat i = Some d → payload_byte data i = Some (byte_val d).
Proof.
  intros Hi Hd. unfold payload_byte. destruct (Z.ltb_spec i 0); [lia|].
  by rewrite Hd.
Qed.

Lemma payload_byte_None data i : py_len data ≤ i → payload_byte data i = None.
Proof.
  intros Hi. unfold payload_byte. destruct (Z.ltb_spec i 0); [done|].
  rewrite lookup_ge_None_2; [done|]. unfold py_len in Hi. lia.
Qed.

(** A palette entry of the decoder is the one the specification gives. *)
Lemma palette_entry_reference data header_size i :
  0 ≤ header_size → 0 ≤ i →
  palette_entry data (14 + header_size) i
  = Some (spec_palette data header_size i).
Proof.
  intros Hhs Hi. unfold palette_entry, spec_palette.
  replace (14 + header_size + i * 4) with (14 + header_size + 4 * i) by lia.
  set (p := 14 + header_size + 4 * i). assert (Hp : 0 ≤ p) by lia.
  destruct (Z.leb_spec (p + 4) (py_len data)) as [Hin|Hout].
  - unfold py_slice. replace (Z.to_nat (p + 4 - p)) with 4%nat by lia.
    destruct (take 4 (drop (Z.to_nat p) data)) as [|b [|g [|r [|a [|]]]]] eqn:Hbs;
      try (apply (f_equal length) in Hbs;
           rewrite length_take, length_drop in Hbs; unfold py_len in Hin;
           cbn [length] in Hbs; lia).
    assert (Hk : ∀ k : nat, (k < 4)%nat →
                   data !! Z.to_nat (p + Z.of_nat k) = [b; g; r; a] !! k).
    { intros k Hk. rewrite <- Hbs, lookup_take_lt, lookup_drop by done.
      f_equal. lia. }
    rewrite (payload_byte_Some data p b), (payload_byte_Some data (p + 1) g),
      (payload_byte_Some data (p + 2) r), (payload_byte_Some data (p + 3) a);
      try lia.
    + cbn [unpack_BBBB mbind option_bind].
      by replace (byte_val r + byte_val g + byte_val b)
        with (byte_val b + byte_val g + byte_val r) by lia.
    + apply (Hk 3%nat). lia.
    + apply (Hk 2%nat). lia.
    + apply (Hk 1%nat). lia.
    + replace p with (p + Z.of_nat 0) by lia. apply (Hk 0%nat). lia.
  - rewrite (payload_byte_None data (p + 3)) by lia.
    by destruct (payload_byte data p), (payload_byte data (p + 1)),
         (payload_byte data (p + 2)).
Qed.

(** An index below [2 ^ depth] finds its entry in the palette of the
    decoder. *)
Lemma palette_lookup_reference data h pn :
  read_header data = Some h → bh_depth h ≤ 8 → 0 ≤ pn < 2 ^ bh_depth h →
  palette_lookup (bmp_palette data h) pn
  = Some (spec_palette data (bh_header_size h) pn).
Proof.
  intros Hread Hd Hpn.
  destruct (read_header_fields data h Hread) as (_ & _ & Hhs & _ & Hd0).
  destruct (bmp_palette_spec data h Hread) as [Hpal _].
  unfold read_palette in Hpal. destruct (Z.leb_spec (bh_depth h) 8); [|lia].
  rewrite Z.shiftl_1_l in Hpal. apply mapM_Some_1 in Hpal.
  pose proof (Forall2_length _ _ _ Hpal) as Hlen. rewrite length_seqZ in Hlen.
  destruct (Forall2_lookup_l _ _ _ (Z.to_nat pn) pn Hpal) as (v & Hv & Hentry).
  { rewrite lookup_seqZ_lt by lia. f_equal. lia. }
  rewrite palette_entry_reference in Hentry by lia. injection Hentry as <-.
  unfold palette_lookup, py_getitem, py_len. rewrite <- Hlen.
  destruct (Z.ltb_spec pn (Z.of_nat (Z.to_nat (2 ^ bh_depth h)))); [|lia].
  destruct (Z.leb_spec 0 pn); [|lia]. done.
Qed.

(** *** The bit operations of the decoder, as arithmetic *)

Lemma bit_of_byte d bit :
  0 ≤ bit → Z.land (Z.shiftr d bit) 1 = (d `div` 2 ^ bit) `mod` 2.
Proof.
  intros Hbit. rewrite Z.shiftr_div_pow2 by done.
  change 1 with (Z.ones 1). by rewrite Z.land_ones.
Qed.

Lemma nibbles_of_byte (d : byte) :
  Z.land (Z.shiftr (byte_val d) 4) 0x0F = byte_val d `div` 16 ∧
  Z.land (byte_val d) 0x0F = byte_val d `mod` 16.
Proof. by destruct d. Qed.

Lemma channels_of_msb (d : byte) :
  Z.shiftl (Z.land (byte_val d) 0x7C) 1 = 8 * ((byte_val d `div` 4) `mod` 32) ∧
  Z.shiftl (Z.land (byte_val d) 0x03) 6 = 64 * (byte_val d `mod` 4) ∧
  Z.land (byte_val d) 0xF8 = 8 * (byte_val d `div` 8) ∧
  Z.shiftl (Z.land (byte_val d) 0x07) 5 = 32 * (byte_val d `mod` 8).
Proof. by destruct d. Qed.

Lemma channels_of_lsb (d : byte) :
  Z.shiftr (Z.land (byte_val d) 0xE0) 2 = 8 * (byte_val d `div` 32) ∧
  Z.shiftr (Z.land (byte_val d) 0xE0) 3 = 4 * (byte_val d `div` 32) ∧
  Z.shiftl (Z.land (byte_val d) 0x1F) 3 = 8 * (byte_val d `mod` 32).
Proof. by destruct d. Qed.

(** The two halves of a green channel do not overlap. *)
Lemma lor_green_555 a c :
  0 ≤ a < 4 → 0 ≤ c < 8 → Z.lor (64 * a) (8 * c) = 64 * a + 8 * c.
Proof.
  intros Ha Hc.
  assert (a = 0 ∨ a = 1 ∨ a = 2 ∨ a = 3) as [-> | [-> | [-> | ->]]] by lia;
    assert (c = 0 ∨ c = 1 ∨ c = 2 ∨ c = 3 ∨ c = 4 ∨ c = 5 ∨ c = 6 ∨ c = 7)
      as [-> | [-> | [-> | [-> | [-> | [-> | [-> | ->]]]]]]] by lia;
    reflexivity.
Qed.

Lemma lor_green_565 a c :
  0 ≤ a < 8 → 0 ≤ c < 8 → Z.lor (32 * a) (4 * c) = 32 * a + 4 * c.
Proof.
  intros Ha Hc.
  assert (a = 0 ∨ a = 1 ∨ a = 2 ∨ a = 3 ∨ a = 4 ∨ a = 5 ∨ a = 6 ∨ a = 7)
    as [-> | [-> | [-> | [-> | [-> | [-> | [-> | ->]]]]]]] by lia;
    assert (c = 0 ∨ c = 1 ∨ c = 2 ∨ c = 3 ∨ c = 4 ∨ c = 5 ∨ c = 6 ∨ c = 7)
      as [-> | [-> | [-> | [-> | [-> | [-> | [-> | ->]]]]]]] by lia;
    reflexivity.
Qed.

(** The channels the decoder computes from the two bytes of a 16-bit pixel
    are the fields of the word, aligned to the top of 8 bits. *)
Lemma channels_555 (lsb msb : byte) :
  let word := byte_val lsb + 256 * byte_val msb in
  Z.shiftl (Z.land (byte_val msb) 0x7C) 1 = 8 * ((word `div` 1024) `mod` 32) ∧
  Z.lor (Z.shiftl (Z.land (byte_val msb) 0x03) 6)
        (Z.shiftr (Z.land (byte_val lsb) 0xE0) 2)
  = 8 * ((word `div` 32) `mod` 32) ∧
  Z.shiftl (Z.land (byte_val lsb) 0x1F) 3 = 8 * (word `mod` 32).
Proof.
  intros word. subst word.
  destruct (channels_of_msb msb) as (-> & -> & _).
  destruct (channels_of_lsb lsb) as (-> & _ & ->).
  pose proof (byte_val_range lsb). pose proof (byte_val_range msb).
  rewrite lor_green_555 by (Z.div_mod_to_equations; lia).
  split_and!; Z.div_mod_to_equations; lia.
Qed.

Lemma channels_565 (lsb msb : byte) :
  let word := byte_val lsb + 256 * byte_val msb in
  Z.land (byte_val msb) 0xF8 = 8 * (word `div` 2048) ∧
  Z.lor (Z.shiftl (Z.land (byte_val msb) 0x07) 5)
        (Z.shiftr (Z.land (byte_val lsb) 0xE0) 3)
  = 4 * ((word `div` 32) `mod` 64) ∧
  Z.shiftl (Z.land (byte_val lsb) 0x1F) 3 = 8 * (word `mod` 32).
Proof.
  intros word. subst word.
  destruct (channels_of_msb msb) as (_ & _ & -> & ->).
  destruct (channels_of_lsb lsb) as (_ & -> & ->).
  pose proof (byte_val_range lsb). pose proof (byte_val_range msb).
  rewrite lor_green_565 by (Z.div_mod_to_equations; lia).
  split_and!; Z.div_mod_to_equations; lia.
Qed.

(** For a header the decoder accepts, at a depth it has a branch for, the
    pixel the decoder computes is the pixel of the specification. *)
Lemma source_pixel_reference data h row col :
  bmp_accepts data h → supported_depth (bh_depth h) = true →
  0 ≤ row → 0 ≤ col →
  source_pixel data h row col = spec_pixel data h row col.
Proof.
  intros (_ & Hread & _ & _ & Hcomp) Hdepth Hrow Hcol.
  pose proof (bmp_row_offset_nonneg data h row Hread Hrow) as Hoff.
  unfold source_pixel, bmp_px, spec_pixel. rewrite spec_stride_eq by done.
  cbv zeta.
  change (bh_image_offset h + row * bmp_row_size (bh_width h) (bh_depth h))
    with (bmp_row_offset h row).
  set (off := bmp_row_offset h row) in *.
  unfold supported_depth in Hdepth.
  destruct (Z.eqb_spec (bh_depth h) 1) as [Hd|_].
  { assert (0 ≤ col `div` 8) by (apply Z.div_pos; lia).
    rewrite payload_byte_getitem by lia. unfold bmp_px_1.
    destruct (Z.ltb_spec (off + col `div` 8) (py_len data)); [|done].
    destruct (py_getitem data (off + col `div` 8)) as [d|]; [|done].
    cbn [fmap option_fmap option_map mbind option_bind].
    rewrite bit_of_byte by (Z.div_mod_to_equations; lia).
    rewrite palette_lookup_reference; [done|done|lia|].
    rewrite Hd. change (2 ^ 1) with 2. apply Z.mod_pos_bound. lia. }
  destruct (Z.eqb_spec (bh_depth h) 4) as [Hd|_].
  { assert (0 ≤ col `div` 2) by (apply Z.div_pos; lia).
    rewrite payload_byte_getitem by lia. unfold bmp_px_4.
    destruct (Z.ltb_spec (off + col `div` 2) (py_len data)); [|done].
    destruct (py_getitem data (off + col `div` 2)) as [d|]; [|done].
    cbn [fmap option_fmap option_map mbind option_bind].
    destruct (nibbles_of_byte d) as [-> ->]. rewrite Zeven_mod.
    rewrite palette_lookup_reference; [done|done|lia|].
    rewrite Hd. change (2 ^ 4) with 16. pose proof (byte_val_range d).
    destruct (col `mod` 2 =? 0); Z.div_mod_to_equations; lia. }
  destruct (Z.eqb_spec (bh_depth h) 8) as [Hd|_].
  { rewrite payload_byte_getitem by lia. unfold bmp_px_8.
    destruct (Z.ltb_spec (off + col) (py_len data)); [|done].
    destruct (py_getitem data (off + col)) as [d|]; [|done].
    cbn [fmap option_fmap option_map mbind option_bind].
    rewrite palette_lookup_reference; [done|done|lia|].
    rewrite Hd. apply byte_val_range. }
  destruct (Z.eqb_spec (bh_depth h) 16) as [Hd|_].
  { replace (2 * col) with (col * 2) by lia.
    rewrite !payload_byte_getitem by lia. unfold bmp_px_16.
    destruct (Z.ltb_spec (off + col * 2 + 1) (py_len data)) as [Hin|Hout].
    - destruct (Z.ltb_spec (off + col * 2) (py_len data)); [|lia].
      destruct (py_getitem data (off + col * 2)) as [d0|]; [|done].
      destruct (py_getitem data (off + col * 2 + 1)) as [d1|]; [|done].
      cbn [fmap option_fmap option_map mbind option_bind].
      unfold spec_threshold. destruct Hcomp as [Hc|Hc]; rewrite Hc.
      + change (0 =? 0) with true. change (0 =? 3) with false. cbv iota.
        by destruct (channels_555 d0 d1) as (-> & -> & ->).
      + change (3 =? 0) with false. change (3 =? 3) with true. cbv iota.
        by destruct (channels_565 d0 d1) as (-> & -> & ->).
    - by destruct (if off + col * 2 <? py_len data
                   then byte_val <$> py_getitem data (off + col * 2) else None). }
  cbn [orb] in Hdepth. rewrite Hdepth.
  assert (Hbpp : 0 ≤ bh_depth h `div` 8).
  { apply Z.div_pos; [|lia]. apply orb_true_iff in Hdepth as [?%Z.eqb_eq|?%Z.eqb_eq]; lia. }
  replace (bh_depth h `div` 8 * col) with (col * (bh_depth h `div` 8)) by lia.
  assert (0 ≤ col * (bh_depth h `div` 8)) by (apply Z.mul_nonneg_nonneg; lia).
  rewrite !payload_byte_getitem by lia. unfold bmp_px_rgb.
  set (p := off + col * (bh_depth h `div` 8)).
  destruct (Z.ltb_spec (p + 2) (py_len data)) as [Hin|Hout].
  - destruct (Z.ltb_spec p (py_len data)); [|lia].
    destruct (Z.ltb_spec (p + 1) (py_len data)); [|lia].
    destruct (py_getitem data p) as [d0|]; [|done].
    destruct (py_getitem data (p + 1)) as [d1|]; [|done].
    destruct (py_getitem data (p + 2)) as [d2|]; [|done].
    done.
  - by destruct (if p <? py_len data then byte_val <$> py_getitem data p else None),
         (if p + 1 <? py_len data
          then byte_val <$> py_getitem data (p + 1) else None).
Qed.

End BmpReference.

Section BmpDecode.

Context {mem : Memory}.
Implicit Types (data : list byte) (h : bmp_header) (im : Image).

Lemma out_line_range h row :
  0 ≤ row < Z.abs (bh_height h) →
  0 ≤ out_line h row < Z.abs (bh_height h) ∧ out_line h (out_line h row) = row.
Proof. unfold out_line. destruct (0 <? bh_height h); lia. Qed.

(** The body of the loop over the rows is [store_row] on the body
    [bmp_px] names, on the line [out_line] names. *)
Lemma bmp_row_spec data h row im :
  read_header data = Some h → wf_image im →
  im_width im = bh_width h → im_height im = Z.abs (bh_height h) →
  0 ≤ row < Z.abs (bh_height h) →
  ∃ im',
    bmp_row data (bmp_palette data h) (bh_image_offset h)
            (bmp_row_size (bh_width h) (bh_depth h)) (bh_width h)
            (Z.abs (bh_height h)) (bh_depth h) (bh_compression h)
            (0 <? bh_height h) row im = Some im' ∧
    wf_image im' ∧ im_width im' = im_width im ∧ im_height im' = im_height im ∧
    ∀ x y', inside im x y' →
      getpixel im' x y'
      = match bmp_px data h row x with
        | Some (Some v) =>
            if bool_decide (y' = out_line h row) then Some v else getpixel im x y'
        | _ => getpixel im x y'
        end.
Proof.
  intros Hread Hwf Hw Hh Hrow.
  assert (Hpx : ∀ col, 0 ≤ col < im_width im → is_Some (bmp_px data h row col)).
  { intros col Hcol. destruct (bmp_px_spec data h row col) as (o & -> & _);
      [done|lia|lia|]. by eexists. }
  destruct (out_line_range h row Hrow) as [Hline _]. rewrite <- Hh in Hline.
  destruct (store_row_spec (bmp_px data h row) (out_line h row) im Hwf Hline Hpx)
    as (im' & Hrun & Hrest).
  unfold bmp_row. fold (bmp_row_offset h row).
  change (if 0 <? bh_height h then Z.abs (bh_height h) - 1 - row else row)
    with (out_line h row).
  rewrite Hw in Hrun. unfold bmp_px in Hrun, Hrest |- *.
  destruct (bh_depth h =? 1); [by exists im'|].
  destruct (bh_depth h =? 4); [by exists im'|].
  destruct (bh_depth h =? 8); [by exists im'|].
  destruct (bh_depth h =? 16); [by exists im'|].
  destruct ((bh_depth h =? 24) || (bh_depth h =? 32)); [by exists im'|].
  exists im. by split_and!.
Qed.

Lemma visited_rows_snoc (visited : list Z) (a row : Z) :
  bool_decide (a ∈ visited ++ [row])
  = bool_decide (a ∈ visited) || bool_decide (a = row).
Proof.
  rewrite <- bool_decide_or. apply bool_decide_ext.
  by rewrite elem_of_app, list_elem_of_singleton.
Qed.

Lemma source_pixel_binary data h row col :
  read_header data = Some h → 0 ≤ row → 0 ≤ col →
  source_pixel data h row col = COLOR_WHITE ∨
  source_pixel data h row col = COLOR_BLACK.
Proof.
  intros Hread Hrow Hcol. unfold source_pixel.
  destruct (bmp_px_spec data h row col Hread Hrow Hcol) as (o & -> & Hbin & _).
  destruct o as [v|]; [by apply Hbin|by left].
Qed.

(** The loop over the rows: every cell of the image ends with the pixel
    of the source row stored on its line. *)
Lemma bmp_rows_spec data h im :
  read_header data = Some h →
  im = mkImage (bh_width h) (Z.abs (bh_height h))
         (replicate (Z.to_nat (bh_width h * Z.abs (bh_height h))) COLOR_WHITE) →
  ∃ im',
    for_range (Z.abs (bh_height h))
      (bmp_row data (bmp_palette data h) (bh_image_offset h)
               (bmp_row_size (bh_width h) (bh_depth h)) (bh_width h)
               (Z.abs (bh_height h)) (bh_depth h) (bh_compression h)
               (0 <? bh_height h)) im = Some im' ∧
    im_width im' = bh_width h ∧ im_height im' = Z.abs (bh_height h) ∧
    ∀ x y', inside im x y' →
      getpixel im' x y' = Some (source_pixel data h (out_line h y') x).
Proof.
  intros Hread Him.
  destruct (read_header_fields data h Hread) as (_ & _ & _ & Hw0 & _).
  assert (Hh0 : 0 ≤ Z.abs (bh_height h)) by lia.
  pose proof (uniform_wf _ _ COLOR_WHITE Hw0 Hh0) as Hwf. rewrite <- Him in Hwf.
  assert (Hw : im_width im = bh_width h) by by subst im.
  assert (Hh : im_height im = Z.abs (bh_height h)) by by subst im.
  set (I := λ (visited : list Z) im',
         wf_image im' ∧ im_width im' = bh_width h ∧
         im_height im' = Z.abs (bh_height h) ∧
         ∀ x y', inside im x y' →
           getpixel im' x y'
           = Some (if bool_decide (out_line h y' ∈ visited)
                   then source_pixel data h (out_line h y') x
                   else COLOR_WHITE)).
  unfold for_range.
  destruct (for_each_invariant I (seqZ 0 (Z.abs (bh_height h)))
              (bmp_row data (bmp_palette data h) (bh_image_offset h)
                 (bmp_row_size (bh_width h) (bh_depth h)) (bh_width h)
                 (Z.abs (bh_height h)) (bh_depth h) (bh_compression h)
                 (0 <? bh_height h)) im)
    as (im' & Hrun & _ & Hw' & Hh' & Hget).
  - split_and!; try done. intros x y' Hin.
    rewrite bool_decide_eq_false_2 by apply not_elem_of_nil.
    rewrite (getpixel_inside _ _ _ Hin). subst im; cbn [im_data im_width].
    apply lookup_replicate_2.
    pose proof (cell_in_range _ x y' Hwf Hin) as Hlt.
    cbn [im_data im_width] in Hlt. by rewrite length_replicate in Hlt.
  - intros visited row im1 (Hwf1 & Hw1 & Hh1 & Hget1) Hrow%elem_of_seqZ.
    destruct (bmp_row_spec data h row im1 Hread Hwf1 Hw1 Hh1)
      as (im2 & Hrun & Hwf2 & Hw2 & Hh2 & Hget2); [lia|].
    exists im2. split; [done|]. split; [done|].
    split; [congruence|]. split; [congruence|].
    intros x y' Hin.
    assert (Hin1 : inside im1 x y') by (unfold inside in *; lia).
    rewrite (Hget2 x y' Hin1), (Hget1 x y' Hin), visited_rows_snoc.
    destruct Hin as [Hx Hy']. rewrite Hh in Hy'.
    destruct (out_line_range h y' Hy') as [_ Hinv].
    destruct (out_line_range h row) as [_ Hinv_row]; [lia|].
    destruct (bool_decide (out_line h y' = row)) eqn:Hhere.
    + apply bool_decide_eq_true in Hhere. subst row.
      rewrite Hinv, orb_true_r. unfold source_pixel.
      destruct (bmp_px data h (out_line h y') x) as [[v|]|] eqn:Hpx.
      * by rewrite bool_decide_eq_true_2.
      * by case_bool_decide.
      * by case_bool_decide.
    + apply bool_decide_eq_false in Hhere. rewrite orb_false_r.
      destruct (bmp_px data h row x) as [[v|]|]; try done.
      rewrite bool_decide_eq_false_2; [done|]. intros ->. by rewrite Hinv_row in Hhere.
  - exists im'. split; [done|]. split; [done|]. split; [done|].
    intros x y' Hin. rewrite (Hget x y' Hin).
    rewrite bool_decide_eq_true_2; [done|].
    destruct Hin as [_ Hy']. rewrite Hh in Hy'.
    destruct (out_line_range h y' Hy') as [Hline _].
    apply elem_of_seqZ. lia.
Qed.

(** [decode_bmp] behind its tests on the header: the image is allocated,
    the rows are stored, the result is converted. *)
Lemma decode_bmp_accepted data h :
  bmp_accepts data h →
  decode_bmp data
  = (image ← image_new (bh_width h) (Z.abs (bh_height h)) COLOR_WHITE;
     image ← for_range (Z.abs (bh_height h))
               (bmp_row data (bmp_palette data h) (bh_image_offset h)
                        (bmp_row_size (bh_width h) (bh_depth h)) (bh_width h)
                        (Z.abs (bh_height h)) (bh_depth h) (bh_compression h)
                        (0 <? bh_height h))
               image;
     Some (convert_1 image)).
Proof.
  intros (Hlen & Hread & Hsig & Hplanes & Hcomp).
  destruct (read_header_fields data h Hread) as (Hsig' & _).
  destruct (bmp_palette_spec data h Hread) as [Hpal _].
  unfold decode_bmp.
  destruct (Z.ltb_spec (py_len data) 54); [lia|].
  rewrite Hsig', Hread. cbn [mbind option_bind]. rewrite Hsig, Hplanes.
  change (negb (0x4D42 =? 0x4D42)) with false.
  change (negb (1 =? 1)) with false. cbn iota.
  assert (negb ((bh_compression h =? 0) || (bh_compression h =? 3)) = false)
    as -> by (destruct Hcomp as [-> | ->]; done).
  destruct (image_new _ _ _) as [im|]; [|done].
  cbn [mbind option_bind]. by rewrite Hpal.
Qed.

(** [decode_bmp] on a payload whose header it accepts and whose image is
    granted: it returns an image of the size the header gives, and each
    line holds the pixels of the source row [out_line] assigns to it. *)
Lemma decode_bmp_spec data h :
  bmp_accepts data h → bmp_allocated h →
  ∃ image, decode_bmp data = Some image ∧
    im_width image = bh_width h ∧ im_height image = Z.abs (bh_height h) ∧
    ∀ x y, 0 ≤ x < bh_width h → 0 ≤ y < Z.abs (bh_height h) →
      getpixel image x y = Some (source_pixel data h (out_line h y) x).
Proof.
  intros Hacc [im0 Hnew]. pose proof Hacc as (_ & Hread & _).
  destruct (image_new_Some _ _ _ _ Hnew) as [Him0 _].
  destruct (bmp_rows_spec data h im0 Hread Him0) as (im' & Hrun & Hw & Hh & Hget).
  exists (convert_1 im'). split.
  - rewrite (decode_bmp_accepted data h Hacc), Hnew.
    cbn [mbind option_bind]. by rewrite Hrun.
  - split; [done|]. split; [done|]. intros x y Hx Hy.
    apply getpixel_convert_1.
    + apply Hget. subst im0. unfold inside; cbn [im_width im_height]. lia.
    + destruct (out_line_range h y Hy) as [Hline _].
      apply (source_pixel_binary data h); [done|lia|lia].
Qed.

(** Behind the tests on the header the allocation alone can fail. *)
Lemma decode_bmp_None data h :
  bmp_accepts data h →
  decode_bmp data = None
  ↔ image_new (bh_width h) (Z.abs (bh_height h)) COLOR_WHITE = None.
Proof.
  intros Hacc. split.
  - intros Hdec.
    destruct (image_new (bh_width h) (Z.abs (bh_height h)) COLOR_WHITE)
      as [im0|] eqn:Hnew; [|done].
    destruct (decode_bmp_spec data h Hacc) as (image & Himage & _);
      [by exists im0|congruence].
  - intros Hnew. by rewrite (decode_bmp_accepted data h Hacc), Hnew.
Qed.

End BmpDecode.

(** A payload of 54 bytes or more always yields a header. *)
Lemma read_header_total (data : list byte) :
  54 ≤ py_len data → is_Some (read_header data).
Proof.
  unfold py_len. intros Hlen.
  do 34 (destruct data as [|? data]; [cbn [length] in Hlen; lia|]).
  by eexists.
Qed.

(** C4. For a payload whose header [decode_bmp] accepts, at a depth it has
    a branch for: the decoder returns an image whenever Pillow grants one
    of the size of the header, and an image it returns has the width of the
    header and the absolute value of its height; with a negative height
    line [r] holds row [r] of the pixel array as the specification reads
    it, with a positive height it holds row [height - 1 - r], so line 0
    holds the last row. *)
Theorem decode_bmp_row_order {mem : Memory} (data : list byte) (h : bmp_header) :
  bmp_accepts data h → supported_depth (bh_depth h) = true →
  (bmp_allocated h → is_Some (decode_bmp data)) ∧
  ∀ image, decode_bmp data = Some image →
    im_width image = bh_width h ∧ im_height image = Z.abs (bh_height h) ∧
    (bh_height h < 0 →
     ∀ r col, 0 ≤ r < Z.abs (bh_height h) → 0 ≤ col < bh_width h →
       getpixel image col r = Some (spec_pixel data h r col)) ∧
    (0 < bh_height h →
     (∀ r col, 0 ≤ r < bh_height h → 0 ≤ col < bh_width h →
        getpixel image col r
        = Some (spec_pixel data h (bh_height h - 1 - r) col)) ∧
     (∀ col, 0 ≤ col < bh_width h →
        getpixel image col 0 = Some (spec_pixel data h (bh_height h - 1) col))).
Proof.
  intros Hacc Hdepth. split.
  { intros Halloc.
    destruct (decode_bmp_spec data h Hacc Halloc) as (image & -> & _).
    by eexists. }
  intros image Himage.
  assert (Halloc : bmp_allocated h).
  { unfold bmp_allocated.
    destruct (image_new (bh_width h) (Z.abs (bh_height h)) COLOR_WHITE)
      as [im0|] eqn:Hnew; [by eexists|].
    apply (decode_bmp_None data h Hacc) in Hnew. congruence. }
  destruct (decode_bmp_spec data h Hacc Halloc) as (image' & Hdec & Hw & Hh & Hpx).
  assert (image' = image) as -> by congruence.
  split; [done|]. split; [done|]. split.
  - intros Hneg r col Hr Hcol. rewrite (Hpx col r Hcol Hr). unfold out_line.
    destruct (Z.ltb_spec 0 (bh_height h)); [lia|].
    by rewrite source_pixel_reference by (done || lia).
  - assert (Hline : ∀ r col, 0 ≤ r < bh_height h → 0 ≤ col < bh_width h →
               getpixel image col r
               = Some (spec_pixel data h (bh_height h - 1 - r) col)).
    { intros r col Hr Hcol. rewrite (Hpx col r Hcol) by lia. unfold out_line.
      destruct (Z.ltb_spec 0 (bh_height h)); [|lia].
      rewrite source_pixel_reference by (done || lia). do 2 f_equal. lia. }
    intros Hpos. split; [done|]. intros col Hcol.
    rewrite (Hline 0 col) by lia. do 2 f_equal. lia.
Qed.

Lemma decode_bmp_row_order_witness :
  let top := mkHeader 0x4D42 102 62 40 8 (-10) 1 1 0 in
  let bottom := mkHeader 0x4D42 102 62 40 8 10 1 1 0 in
  (bmp_accepts (bmp_1bpp (-10)) top ∧ supported_depth 1 = true ∧
   ∃ image, decode_bmp (mem := no_spare_memory) (bmp_1bpp (-10)) = Some image ∧
     ∀ r col, 0 ≤ r < 10 → 0 ≤ col < 8 →
       getpixel image col r = Some (spec_pixel (bmp_1bpp (-10)) top r col)) ∧
  (bmp_accepts (bmp_1bpp 10) bottom ∧ supported_depth 1 = true ∧
   ∃ image, decode_bmp (mem := no_spare_memory) (bmp_1bpp 10) = Some image ∧
     (∀ r col, 0 ≤ r < 10 → 0 ≤ col < 8 →
        getpixel image col r
        = Some (spec_pixel (bmp_1bpp 10) bottom (10 - 1 - r) col)) ∧
     (∀ col, 0 ≤ col < 8 →
        getpixel image col 0 = Some (spec_pixel (bmp_1bpp 10) bottom (10 - 1) col))).
Proof.
  intros top bottom.
  assert (Htop : bmp_accepts (bmp_1bpp (-10)) top).
  { unfold bmp_accepts. split_and!; [by vm_compute|by vm_compute|done|done|by left]. }
  assert (Hbottom : bmp_accepts (bmp_1bpp 10) bottom).
  { unfold bmp_accepts. split_and!; [by vm_compute|by vm_compute|done|done|by left]. }
  assert (Hdepth : supported_depth 1 = true) by reflexivity.
  assert (Hgrant : ∀ height, Z.abs height = 10 →
            bmp_allocated (mem := no_spare_memory)
              (mkHeader 0x4D42 102 62 40 8 height 1 1 0)).
  { intros height Hheight. unfold bmp_allocated. cbn [bh_width bh_height].
    rewrite Hheight. by eexists. }
  split.
  - destruct (decode_bmp_row_order (mem := no_spare_memory)
                (bmp_1bpp (-10)) top Htop Hdepth) as [Hsome Hrows].
    destruct (Hsome (Hgrant (-10) eq_refl)) as [image Himage].
    destruct (Hrows image Himage) as (_ & _ & Hdown & _).
    split; [done|]. split; [done|]. exists image. split; [done|].
    intros r col Hr Hcol. apply Hdown; cbn [bh_height bh_width top]; lia.
  - destruct (decode_bmp_row_order (mem := no_spare_memory)
                (bmp_1bpp 10) bottom Hbottom Hdepth) as [Hsome Hrows].
    destruct (Hsome (Hgrant 10 eq_refl)) as [image Himage].
    destruct (Hrows image Himage) as (_ & _ & _ & Hup).
    split; [done|]. split; [done|]. exists image. split; [done|].
    apply Hup. cbn [bh_height bottom]. lia.
Defined.

(** The two samples of 10 rows at 1 bit per pixel, evaluated. Row 0 of the
    pixel array is the byte 0x80, row 9 the byte 0x0F, and bit 1 selects
    the white palette entry: as the specification reads the rows, and as
    the decoder stores them, rows 0 to 9 on lines 0 to 9 for the height
    -10 and on lines 9 to 0 for the height 10. *)
Example spec_pixel_1bpp :
  (λ r, (λ col, spec_pixel (bmp_1bpp (-10))
                  (mkHeader 0x4D42 102 62 40 8 (-10) 1 1 0) r col) <$> seqZ 0 8)
    <$> [0; 9]
  = [[255; 0; 0; 0; 0; 0; 0; 0]; [0; 0; 0; 0; 255; 255; 255; 255]].
Proof. by vm_compute. Qed.

Example decode_bmp_top_down :
  ∃ image, decode_bmp (mem := no_spare_memory) (bmp_1bpp (-10)) = Some image ∧
    take 8 (im_data image) = [255; 0; 0; 0; 0; 0; 0; 0] ∧
    drop 72 (im_data image) = [0; 0; 0; 0; 255; 255; 255; 255].
Proof. eexists. split; [by vm_compute|done]. Qed.

Example decode_bmp_bottom_up :
  ∃ image, decode_bmp (mem := no_spare_memory) (bmp_1bpp 10) = Some image ∧
    take 8 (im_data image) = [0; 0; 0; 0; 255; 255; 255; 255] ∧
    drop 72 (im_data image) = [255; 0; 0; 0; 0; 0; 0; 0].
Proof. eexists. split; [by vm_compute|done]. Qed.

(** The sample of depth 2, byte by byte: "BM", the file size 78, four
    reserved bytes, the offset 70 of the pixel array, the header size 40,
    the width 4, the height 2, one plane, depth 2, compression 0, twenty
    bytes of fields that are not read, four palette entries, two rows. *)
Example bmp_2bpp_bytes :
  bmp_2bpp
  = [x42; x4d;  x4e; x00; x00; x00;  x00; x00; x00; x00;  x46; x00; x00; x00;
     x28; x00; x00; x00;  x04; x00; x00; x00;  x02; x00; x00; x00;
     x01; x00;  x02; x00;  x00; x00; x00; x00;
     x00; x00; x00; x00; x00; x00; x00; x00; x00; x00;
     x00; x00; x00; x00; x00; x00; x00; x00; x00; x00;
     x00; x00; x00; x00;  x55; x55; x55; x00;
     xaa; xaa; xaa; x00;  xff; xff; xff; x00;
     x1b; x00; x00; x00;  xe4; x00; x00; x00].
Proof. reflexivity. Qed.

(** C6, as the code has it. For a payload whose header passes the tests on
    length, signature, planes and compression and whose bit depth is not
    one of 1, 4, 8, 16, 24, 32, [decode_bmp] does not look at the depth: it
    returns what [Image.new] gave for the size of the header, nothing
    stored in it. So it fails only when that image is not granted, and
    otherwise returns the image of that size with every cell white. *)
Theorem decode_bmp_other_depth {mem : Memory} (data : list byte) (h : bmp_header) :
  bmp_accepts data h → supported_depth (bh_depth h) = false →
  decode_bmp data = image_new (bh_width h) (Z.abs (bh_height h)) COLOR_WHITE ∧
  (bmp_allocated h →
   ∃ image, decode_bmp data = Some image ∧
     im_width image = bh_width h ∧ im_height image = Z.abs (bh_height h) ∧
     ∀ x y, 0 ≤ x < bh_width h → 0 ≤ y < Z.abs (bh_height h) →
       getpixel image x y = Some COLOR_WHITE).
Proof.
  intros Hacc Hdepth. split.
  - rewrite (decode_bmp_accepted data h Hacc).
    destruct (image_new (bh_width h) (Z.abs (bh_height h)) COLOR_WHITE)
      as [im0|] eqn:Hnew; [|done].
    cbn [mbind option_bind]. unfold for_range.
    rewrite for_each_skip.
    + cbn [mbind option_bind]. f_equal.
      destruct (image_new_Some _ _ _ _ Hnew) as [-> _].
      unfold convert_1; cbn [im_width im_height im_data]. by rewrite fmap_replicate.
    + intros row im. unfold bmp_row. unfold supported_depth in Hdepth.
      destruct (bh_depth h =? 1); [done|]. destruct (bh_depth h =? 4); [done|].
      destruct (bh_depth h =? 8); [done|]. destruct (bh_depth h =? 16); [done|].
      by destruct (bh_depth h =? 24), (bh_depth h =? 32).
  - intros Halloc.
    destruct (decode_bmp_spec data h Hacc Halloc) as (image & Hdec & Hw & Hh & Hpx).
    exists image. split; [done|]. split; [done|]. split; [done|].
    intros x y Hx Hy. rewrite (Hpx x y Hx Hy). f_equal.
    unfold source_pixel, bmp_px. unfold supported_depth in Hdepth.
    destruct (bh_depth h =? 1); [done|]. destruct (bh_depth h =? 4); [done|].
    destruct (bh_depth h =? 8); [done|]. destruct (bh_depth h =? 16); [done|].
    destruct (bh_depth h =? 24); [done|]. destruct (bh_depth h =? 32); [done|].
    done.
Qed.

Lemma decode_bmp_other_depth_witness :
  let h := mkHeader 0x4D42 78 70 40 4 2 1 2 0 in
  bmp_accepts bmp_2bpp h ∧ supported_depth 2 = false ∧
  decode_bmp (mem := no_spare_memory) bmp_2bpp
  = image_new (mem := no_spare_memory) 4 (Z.abs 2) COLOR_WHITE ∧
  (bmp_allocated (mem := no_spare_memory) h →
   ∃ image, decode_bmp (mem := no_spare_memory) bmp_2bpp = Some image ∧
     im_width image = 4 ∧ im_height image = Z.abs 2 ∧
     ∀ x y, 0 ≤ x < 4 → 0 ≤ y < Z.abs 2 → getpixel image x y = Some COLOR_WHITE).
Proof.
  intros h.
  assert (Hacc : bmp_accepts bmp_2bpp h).
  { unfold bmp_accepts. split_and!; [by vm_compute|by vm_compute|done|done|by left]. }
  assert (Hdepth : supported_depth (bh_depth h) = false) by reflexivity.
  exact (conj Hacc (conj Hdepth
           (decode_bmp_other_depth (mem := no_spare_memory) bmp_2bpp h Hacc Hdepth))).
Defined.

(** C6, as stated, fails on a payload of depth 2: its header passes every
    test, and [decode_bmp] returns an image, 4 x 2 and all white, where the
    claim has it fail. *)
Lemma decode_bmp_depth_2_returns_image :
  bmp_accepts bmp_2bpp (mkHeader 0x4D42 78 70 40 4 2 1 2 0) ∧
  supported_depth 2 = false ∧
  decode_bmp (mem := no_spare_memory) bmp_2bpp
  = Some (mkImage 4 2 [255; 255; 255; 255; 255; 255; 255; 255]) ∧
  decode_payload (mem := no_spare_memory) bmp_2bpp
  = inr (mkImage 4 2 [255; 255; 255; 255; 255; 255; 255; 255]).
Proof.
  split.
  { unfold bmp_accepts. split_and!; [by vm_compute|by vm_compute|done|done|by left]. }
  split; [done|]. split; by vm_compute.
Qed.

(** C8, as stated, fails on a payload that is a header alone, 24 bits per
    pixel, 2^31 pixels wide: its header passes every test, the width does
    not fit a C [int], [Image.new] raises and [decode_bmp] returns [None],
    on every machine. *)
Lemma decode_bmp_too_wide_fails :
  bmp_accepts bmp_too_wide (mkHeader 0x4D42 54 54 40 (2 ^ 31) 1 1 24 0) ∧
  supported_depth 24 = true ∧
  decode_bmp (mem := ample_memory) bmp_too_wide = None ∧
  decode_bmp (mem := no_spare_memory) bmp_too_wide = None ∧
  decode_payload (mem := ample_memory) bmp_too_wide = inl DecodeFailed.
Proof.
  split.
  { unfold bmp_accepts. split_and!; [by vm_compute|by vm_compute|done|done|by left]. }
  split; [done|]. split_and!; by vm_compute.
Qed.

(** C8, as the code has it. For a payload whose header [decode_bmp]
    accepts, at a depth it has a branch for, and whose image Pillow grants,
    the decoder returns an image whatever the length of the pixel array: no
    read leaves the payload, every pixel holds the value decoded from its
    bytes, and a pixel whose last byte to read lies behind the end of the
    payload is white. *)
Theorem decode_bmp_truncation {mem : Memory} (data : list byte) (h : bmp_header) :
  bmp_accepts data h → supported_depth (bh_depth h) = true → bmp_allocated h →
  ∃ image, decode_bmp data = Some image ∧
    ∀ row col, 0 ≤ row < Z.abs (bh_height h) → 0 ≤ col < bh_width h →
      getpixel image col (out_line h row) = Some (source_pixel data h row col) ∧
      (py_len data ≤ bmp_last_byte h row col →
       getpixel image col (out_line h row) = Some COLOR_WHITE).
Proof.
  intros Hacc _ Halloc.
  destruct (decode_bmp_spec data h Hacc Halloc) as (image & Hdec & Hw & Hh & Hpx).
  exists image. split; [done|]. intros row col Hrow Hcol.
  destruct (out_line_range h row Hrow) as [Hline Hinv].
  rewrite (Hpx col (out_line h row) Hcol Hline), Hinv. split; [done|].
  intros Hcut. f_equal. unfold source_pixel.
  destruct Hacc as (_ & Hread & _).
  destruct (bmp_px_spec data h row col Hread) as (o & -> & _ & Hnone); [lia..|].
  by rewrite (Hnone Hcut).
Qed.

Lemma decode_bmp_truncation_witness :
  let h := mkHeader 0x4D42 67 54 40 2 2 1 24 0 in
  bmp_accepts bmp_24bpp_cut h ∧ supported_depth 24 = true ∧
  bmp_allocated (mem := no_spare_memory) h ∧
  py_len bmp_24bpp_cut ≤ bmp_last_byte h 1 1 ∧
  ∃ image, decode_bmp (mem := no_spare_memory) bmp_24bpp_cut = Some image ∧
    ∀ row col, 0 ≤ row < Z.abs 2 → 0 ≤ col < 2 →
      getpixel image col (out_line h row)
      = Some (source_pixel bmp_24bpp_cut h row col) ∧
      (py_len bmp_24bpp_cut ≤ bmp_last_byte h row col →
       getpixel image col (out_line h row) = Some COLOR_WHITE).
Proof.
  intros h.
  assert (Hacc : bmp_accepts bmp_24bpp_cut h).
  { unfold bmp_accepts. split_and!; [by vm_compute|by vm_compute|done|done|by left]. }
  assert (Hdepth : supported_depth (bh_depth h) = true) by reflexivity.
  assert (Halloc : bmp_allocated (mem := no_spare_memory) h) by by eexists.
  assert (Hcut : py_len bmp_24bpp_cut ≤ bmp_last_byte h 1 1) by by vm_compute.
  exact (conj Hacc (conj Hdepth (conj Halloc (conj Hcut
           (decode_bmp_truncation (mem := no_spare_memory)
              bmp_24bpp_cut h Hacc Hdepth Halloc))))).
Defined.

(** The cut sample decodes with its last pixel white, though the two bytes
    of it that are present are 0. *)
Example decode_bmp_cut_sample :
  decode_bmp (mem := no_spare_memory) bmp_24bpp_cut
  = Some (mkImage 2 2 [0; 255; 255; 0]).
Proof. by vm_compute. Qed.

(** At 32 bits per pixel the fourth byte of a pixel is not read: a pixel
    that lacks it alone is decoded from the other three. *)
Example decode_bmp_alpha_cut :
  py_len bmp_32bpp_cut = 57 ∧
  bmp_last_byte (mkHeader 0x4D42 57 54 40 1 1 1 32 0) 0 0 = 56 ∧
  decode_bmp (mem := no_spare_memory) bmp_32bpp_cut
  = Some (mkImage 1 1 [COLOR_BLACK]).
Proof. split_and!; by vm_compute. Qed.

(** ** Format dispatch *)

(** C7. A body shorter than 2 bytes is refused. Otherwise the first two
    bytes, read as a little-endian word, decide alone, whatever follows
    them: 0x4D42, 0x315A, 0x325A and 0x335A hand the body to the BMP, Z1,
    Z2 and Z3 decoder, and any other word ends the attempt as an unknown
    format, with no image and no decoder run. *)
Theorem decode_payload_dispatch {mem : Memory} (data : list byte) :
  (py_len data < 2 → decode_payload data = inl ResponseTooShort) ∧
  (∀ b0 b1 rest, data = b0 :: b1 :: rest →
     let header := byte_val b0 + 256 * byte_val b1 in
     (header = 0x4D42 → decode_payload data = decoded (decode_bmp data)) ∧
     (header = 0x315A → decode_payload data = decoded (decode_rle_z1 data)) ∧
     (header = 0x325A → decode_payload data = decoded (decode_rle_z2 data)) ∧
     (header = 0x335A → decode_payload data = decoded (decode_rle_z3 data)) ∧
     (header ≠ 0x4D42 → header ≠ 0x315A → header ≠ 0x325A → header ≠ 0x335A →
      decode_payload data = inl UnknownFormat)).
Proof.
  split.
  - intros Hshort. unfold decode_payload.
    by destruct (Z.ltb_spec (py_len data) 2); [|lia].
  - intros b0 b1 rest -> header.
    assert (Hrun : decode_payload (b0 :: b1 :: rest)
                   = match format_of_header header with
                     | Some f => decoded (decoder_of f (b0 :: b1 :: rest))
                     | None => inl UnknownFormat
                     end).
    { unfold decode_payload.
      destruct (Z.ltb_spec (py_len (b0 :: b1 :: rest)) 2) as [Hlen|_];
        [unfold py_len in Hlen; cbn [length] in Hlen; lia|].
      change (unpack_H (py_slice (b0 :: b1 :: rest) 0 2)) with (Some header).
      cbn iota. destruct (format_of_header header); [|done].
      by destruct (decoder_of _ _). }
    rewrite Hrun. unfold format_of_header.
    split_and!.
    + by intros ->.
    + by intros ->.
    + by intros ->.
    + by intros ->.
    + intros H1 H2 H3 H4.
      destruct (Z.eqb_spec header 0x4D42); [done|].
      destruct (Z.eqb_spec header 0x315A); [done|].
      destruct (Z.eqb_spec header 0x325A); [done|].
      by destruct (Z.eqb_spec header 0x335A).
Qed.

(** * Further properties *)

(** ** The update check: which responses raise, what is ignored *)

Section HeaderLoop.

Implicit Types (acc : Z * Z * Z) (hv : string * string)
  (headers : list (string * string)).

Lemma recognised_false hv :
  recognised hv = false →
  is_header "timestamp" hv = false ∧ is_header "sleep" hv = false ∧
  is_header "sleepseconds" hv = false ∧ is_header "rotate" hv = false.
Proof.
  unfold recognised. intros H.
  apply orb_false_elim in H as [H Hr]. apply orb_false_elim in H as [H Hss].
  apply orb_false_elim in H as [Ht Hs]. done.
Qed.



(** The loop sees a header through its lower-cased name and its value. *)
Lemma header_step_same acc hv hv' :
  lower hv.1 = lower hv'.1 → hv.2 = hv'.2 →
  header_step acc hv = header_step acc hv'.
Proof.
  destruct acc as [[ts sl] rot], hv as [name value], hv' as [name' value'].
  cbn [fst snd]. intros Hname ->. unfold header_step. by rewrite Hname.
Qed.

Lemma parse_loop_same acc headers headers' :
  same_headers headers headers' →
  parse_loop acc headers = parse_loop acc headers'.
Proof.
  intros Hsame. revert acc.
  induction Hsame as [|hv hv' rest rest' [Hname Hvalue] _ IH]; intros acc; [done|].
  cbn [parse_loop]. rewrite (header_step_same acc hv hv' Hname Hvalue).
  destruct (header_step acc hv') as [acc'|]; [apply IH|done].
Qed.

Lemma parse_loop_filter acc headers :
  parse_loop acc (List.filter recognised headers) = parse_loop acc headers.
Proof.
  revert acc. induction headers as [|hv rest IH]; intros acc; [done|].
  cbn [List.filter parse_loop]. destruct (recognised hv) eqn:Hrec.
  - cbn [parse_loop]. destruct (header_step acc hv) as [acc'|]; [apply IH|done].
  - destruct (recognised_false hv Hrec) as (Ht & Hs & Hss & Hr).
    rewrite (header_step_other acc hv Ht Hs Hss Hr). apply IH.
Qed.

Lemma parse_loop_keeps_rotation headers ts sl rot ts' sl' rot' :
  forallb (λ hv, negb (is_header "rotate" hv)) headers = true →
  parse_loop (ts, sl, rot) headers = Some (ts', sl', rot') → rot' = rot.
Proof.
  revert ts sl rot. induction headers as [|[name value] rest IH];
    intros ts sl rot; cbn [forallb parse_loop].
  - intros _ [= _ _ ->]. done.
  - intros [Hhv Hrest]%andb_prop Hrun.
    apply negb_true_iff in Hhv. unfold is_header in Hhv; cbn [fst] in Hhv.
    unfold header_step in Hrun.
    repeat case_match; simplify_option_eq; eauto.
Qed.

End HeaderLoop.


(** Values at the edges of what [int] takes: white space around the number
    but not the separators 0x1C-0x1F, an underscore between two digits, and
    4300 digits at most. *)
Example py_int_samples :
  py_int " 1_000 " = Some 1000 ∧ py_int "-07" = Some (-7) ∧
  py_int (String (ascii_of_nat 160) "9") = Some 9 ∧
  py_int (String (ascii_of_nat 31) "9") = None ∧
  py_int "1__0" = None ∧ py_int "+ 5" = None ∧ py_int "" = None ∧
  is_Some (py_int (ones_value 4300)) ∧ py_int (ones_value 4301) = None.
Proof. split_and!; try by vm_compute. vm_compute. by eexists. Qed.

Example check_for_update_separator_raises :
  check_for_update init_client
    (Response 200 [("timestamp", String (ascii_of_nat 31) "9")])
  = (init_client, RaisedValueError).
Proof. by vm_compute. Qed.

(** X2. Header names count without their case: two responses whose
    headers differ in the case of the names only get the same answer and
    leave the same client. *)
Theorem check_for_update_case_insensitive
    (self : ZivyObrazClient) (status_code : Z)
    (headers headers' : list (string * string)) :
  same_headers headers headers' →
  check_for_update self (Response status_code headers)
  = check_for_update self (Response status_code headers').
Proof.
  intros Hsame. unfold check_for_update, parse_headers.
  by rewrite (parse_loop_same _ headers headers' Hsame).
Qed.

Lemma check_for_update_case_insensitive_witness :
  let headers := [("Timestamp", "7"); ("SLEEP", "3"); ("Server", "nginx")] in
  let headers' := [("timestamp", "7"); ("sleep", "3"); ("server", "nginx")] in
  same_headers headers headers' ∧
  check_for_update init_client (Response 200 headers)
  = check_for_update init_client (Response 200 headers').
Proof.
  intros headers headers'.
  assert (Hsame : same_headers headers headers')
    by (repeat constructor).
  exact (conj Hsame
           (check_for_update_case_insensitive init_client 200 _ _ Hsame)).
Defined.

(** X3. Headers the loop has no branch for are ignored: a response and the
    same response stripped of them get the same answer, so no value of
    theirs can make the check raise. *)
Theorem check_for_update_ignores_other_headers
    (self : ZivyObrazClient) (status_code : Z) (headers : list (string * string)) :
  check_for_update self (Response status_code (List.filter recognised headers))
  = check_for_update self (Response status_code headers).
Proof.
  unfold check_for_update, parse_headers. by rewrite parse_loop_filter.
Qed.

(** X4. What a check returns for a header that is missing: without [sleep]
    and [sleepseconds] the sleep time is the default 120, without [rotate]
    the rotation is 0. *)
Theorem check_for_update_defaults
    (self : ZivyObrazClient) (headers : list (string * string))
    (needs_update : bool) (sl rot : Z) :
  (check_for_update self (Response 200 headers)).2 = Returned needs_update sl rot →
  (forallb (λ hv, negb (sets_sleep hv)) headers = true → sl = 120) ∧
  (forallb (λ hv, negb (is_header "rotate" hv)) headers = true → rot = 0).
Proof.
  unfold check_for_update. cbn [Z.eqb negb Pos.eqb].
  destruct (parse_headers headers) as [[[ts sl0] rot0]|] eqn:Hp; [|done].
  intros Hret.
  assert (sl0 = sl ∧ rot0 = rot) as [-> ->]
    by (destruct (negb (ts =? timestamp self)); by injection Hret).
  split; intros Hnone.
  - exact (parse_loop_keeps_sleep _ _ _ _ _ _ _ Hnone Hp).
  - exact (parse_loop_keeps_rotation _ _ _ _ _ _ _ Hnone Hp).
Qed.

Lemma check_for_update_defaults_witness :
  let headers := [("timestamp", "4"); ("content-type", "image/bmp")] in
  (check_for_update init_client (Response 200 headers)).2 = Returned true 120 0 ∧
  (forallb (λ hv, negb (sets_sleep hv)) headers = true → 120 = 120) ∧
  (forallb (λ hv, negb (is_header "rotate" hv)) headers = true → 0 = 0).
Proof.
  intros headers.
  assert (Hret : (check_for_update init_client (Response 200 headers)).2
                 = Returned true 120 0) by reflexivity.
  exact (conj Hret (check_for_update_defaults init_client headers true 120 0 Hret)).
Defined.

(** ** The run-length decoders: what is painted, what does not count *)

Section RunLengthRaster.

Context {mem : Memory}.
Implicit Types (st : Image * Z * Z) (toks : list (Z * nat)).

Lemma z3_loop_tokens unread st :
  z3_loop unread st = rle_loop (z3_tokens unread) st.
Proof.
  revert st. induction unread as [|d unread IH]; intros st; [done|].
  cbn [z3_loop z3_tokens fmap list_fmap rle_loop fst snd].
  destruct (st.2 <? DISPLAY_HEIGHT); [|done].
  destruct (paint_run _ _ st) as [st'|]; [|done].
  cbn [mbind option_bind]. apply IH.
Qed.

Lemma expand_app toks toks' : expand (toks ++ toks') = expand toks ++ expand toks'.
Proof. unfold expand. apply bind_app. Qed.

(** The image of a decoder in terms of its tokens. *)
Lemma decode_rle_raster loop (tokens : list byte → list (Z * nat)) data :
  (∀ unread st, loop unread st = rle_loop (tokens unread) st) →
  ∃ image, decode_rle loop data = Some image ∧
    im_width image = 800 ∧ im_height image = 480 ∧
    ∀ x y, 0 ≤ x < 800 → 0 ≤ y < 480 →
      getpixel image x y = Some (raster_colour (tokens (drop 2 data)) x y).
Proof.
  intros Hloop.
  destruct (decode_rle_spec loop tokens data Hloop)
    as (st & _ & _ & _ & Hdec & Hw & Hh & Hpx).
  exists (convert_1 st.1.1). split; [done|]. split; [done|]. split; [done|].
  exact Hpx.
Qed.

(** Two payloads whose tokens expand to the same colours decode to the
    same image. *)
Lemma decode_rle_expand_ext loop (tokens : list byte → list (Z * nat)) data data' :
  (∀ unread st, loop unread st = rle_loop (tokens unread) st) →
  expand (tokens (drop 2 data)) = expand (tokens (drop 2 data')) →
  decode_rle loop data = decode_rle loop data'.
Proof.
  intros Hloop Hexp.
  destruct (rle_loop_spec (tokens (drop 2 data)) _ blank_canvas_sound)
    as (st & Hrun & Hc & Hcur & Hdata).
  destruct (rle_loop_spec (tokens (drop 2 data')) _ blank_canvas_sound)
    as (st' & Hrun' & Hc' & Hcur' & Hdata').
  rewrite <- !length_expand in Hcur, Hcur'. rewrite <- Hexp in Hcur', Hdata'.
  unfold decode_rle.
  rewrite (image_new_within_panel DISPLAY_WIDTH DISPLAY_HEIGHT) by done.
  cbn [mbind option_bind]. fold blank_canvas. rewrite !Hloop, Hrun, Hrun'.
  cbn [mbind option_bind]. do 2 f_equal.
  destruct st as [[im cx] cy], st' as [[im' cx'] cy']. cbn [fst snd] in *.
  destruct Hc as (Hw & Hh & _), Hc' as (Hw' & Hh' & _).
  destruct im as [w h cells], im' as [w' h' cells']. cbn [im_width im_height im_data] in *.
  subst. f_equal. apply list_eq. intros q.
  rewrite Hdata, Hdata', Hcur, Hcur'. done.
Qed.

End RunLengthRaster.

(** X5. [decode_rle_z1] always returns an 800 x 480 image; each cell holds
    the colour of the two-byte token whose run covers its raster position,
    and white when the runs end before it. *)
Theorem decode_rle_z1_raster {mem : Memory} (data : list byte) :
  ∃ image, decode_rle_z1 data = Some image ∧
    im_width image = 800 ∧ im_height image = 480 ∧
    ∀ x y, 0 ≤ x < 800 → 0 ≤ y < 480 →
      getpixel image x y = Some (raster_colour (z1_tokens (drop 2 data)) x y).
Proof. exact (decode_rle_raster z1_loop z1_tokens data z1_loop_tokens). Qed.

(** X6. The same for [decode_rle_z2], whose tokens are single bytes: the
    two high bits the colour index, the six low bits the run. *)
Theorem decode_rle_z2_raster {mem : Memory} (data : list byte) :
  ∃ image, decode_rle_z2 data = Some image ∧
    im_width image = 800 ∧ im_height image = 480 ∧
    ∀ x y, 0 ≤ x < 800 → 0 ≤ y < 480 →
      getpixel image x y = Some (raster_colour (z2_tokens (drop 2 data)) x y).
Proof. exact (decode_rle_raster z2_loop z2_tokens data z2_loop_tokens). Qed.

(** X7. The same for [decode_rle_z3]: the three high bits the colour index,
    the five low bits the run. *)
Theorem decode_rle_z3_raster {mem : Memory} (data : list byte) :
  ∃ image, decode_rle_z3 data = Some image ∧
    im_width image = 800 ∧ im_height image = 480 ∧
    ∀ x y, 0 ≤ x < 800 → 0 ≤ y < 480 →
      getpixel image x y = Some (raster_colour (z3_tokens (drop 2 data)) x y).
Proof. exact (decode_rle_raster z3_loop z3_tokens data z3_loop_tokens). Qed.

(** X8. A Z2 stream cut short is no error and paints a part of the
    picture: on the cells its own runs reach it agrees with the full
    stream, and the cells behind them are white. *)
Theorem decode_rle_z2_truncated {mem : Memory}
    (h0 h1 : byte) (body more : list byte) :
  ∃ part full,
    decode_rle_z2 (h0 :: h1 :: body) = Some part ∧
    decode_rle_z2 (h0 :: h1 :: body ++ more) = Some full ∧
    ∀ x y, 0 ≤ x < 800 → 0 ≤ y < 480 →
      (y * 800 + x < Z.of_nat (run_total (z2_tokens body)) →
       getpixel part x y = getpixel full x y) ∧
      (Z.of_nat (run_total (z2_tokens body)) ≤ y * 800 + x →
       getpixel part x y = Some COLOR_WHITE).
Proof.
  destruct (decode_rle_raster z2_loop z2_tokens (h0 :: h1 :: body) z2_loop_tokens)
    as (part & Hpart & _ & _ & Hpx).
  destruct (decode_rle_raster z2_loop z2_tokens (h0 :: h1 :: body ++ more)
              z2_loop_tokens) as (full & Hfull & _ & _ & Hpx').
  exists part, full. split; [done|]. split; [done|]. intros x y Hx Hy.
  rewrite (Hpx x y Hx Hy), (Hpx' x y Hx Hy). unfold raster_colour.
  change (drop 2 (h0 :: h1 :: body)) with body.
  change (drop 2 (h0 :: h1 :: body ++ more)) with (body ++ more).
  assert (z2_tokens (body ++ more) = z2_tokens body ++ z2_tokens more) as ->
    by apply fmap_app.
  rewrite expand_app. pose proof (length_expand (z2_tokens body)) as Hlen.
  change DISPLAY_WIDTH with 800. split; intros Hpos.
  - by rewrite lookup_app_l by lia.
  - by rewrite lookup_ge_None_2 by lia.
Qed.

(** X9. A Z3 token with run 0 is read and paints nothing: dropping every
    such byte from the stream leaves the decoded image as it is. *)
Theorem decode_rle_z3_empty_runs {mem : Memory}
    (h0 h1 : byte) (body : list byte) :
  decode_rle_z3 (h0 :: h1 :: List.filter (λ d, negb (z3_empty_run d)) body)
  = decode_rle_z3 (h0 :: h1 :: body).
Proof.
  apply (decode_rle_expand_ext z3_loop z3_tokens); [apply z3_loop_tokens|].
  change (expand (z3_tokens (List.filter (λ d, negb (z3_empty_run d)) body))
          = expand (z3_tokens body)).
  induction body as [|d body IH]; [done|].
  assert (Hcons : ∀ l, expand (z3_tokens (d :: l))
                       = replicate (run_length (Z.land (byte_val d) 0x1F))
                           (_get_color_from_index
                              (Z.shiftr (Z.land (byte_val d) 0xE0) 5))
                         ++ expand (z3_tokens l)) by done.
  cbn [List.filter]. unfold z3_empty_run at 1.
  destruct (Z.eqb_spec (Z.land (byte_val d) 0x1F) 0) as [Hzero|Hrun]; cbn [negb].
  - by rewrite IH, Hcons, Hzero.
  - by rewrite !Hcons, IH.
Qed.

(** X10. A Z1 token needs its two bytes: a single byte left at the end of
    the stream is never read. *)
Theorem decode_rle_z1_odd_byte {mem : Memory} (data : list byte) (d : byte) :
  Nat.Even (length (drop 2 data)) → (2 ≤ length data)%nat →
  decode_rle_z1 (data ++ [d]) = decode_rle_z1 data.
Proof.
  intros Heven Hlen.
  apply (decode_rle_expand_ext z1_loop z1_tokens); [apply z1_loop_tokens|].
  rewrite drop_app_le by lia. f_equal.
  destruct Heven as [k Hk]. revert Hk. generalize (drop 2 data). clear.
  induction k as [|k IH]; intros unread Hk.
  - destruct unread; [done|]. cbn in Hk. lia.
  - destruct unread as [|d0 [|d1 unread]]; [cbn in Hk; lia..|].
    cbn [app z1_tokens]. f_equal. apply IH. cbn [length] in Hk. lia.
Qed.

Lemma decode_rle_z1_odd_byte_witness :
  Nat.Even (length (drop 2 [x5a; x31; x01; x05])) ∧
  (2 ≤ length [x5a; x31; x01; x05])%nat ∧
  decode_rle_z1 (mem := no_spare_memory) ([x5a; x31; x01; x05] ++ [x01])
  = decode_rle_z1 (mem := no_spare_memory) [x5a; x31; x01; x05].
Proof.
  assert (Heven : Nat.Even (length (drop 2 [x5a; x31; x01; x05])))
    by (exists 1%nat; reflexivity).
  assert (Hlen : (2 ≤ length [x5a; x31; x01; x05])%nat) by (cbn; lia).
  exact (conj Heven (conj Hlen
           (decode_rle_z1_odd_byte (mem := no_spare_memory)
              [x5a; x31; x01; x05] x01 Heven Hlen))).
Defined.


(** ** The BMP decoder: when it fails, where it reads *)

(** X11. [decode_bmp] gives up in these cases and no other: the payload
    has fewer than 54 bytes, the signature is not "BM", the plane count is
    not 1, the compression is neither 0 nor 3, or [Image.new] raises for
    the size of the header: a width or a height above the largest C [int],
    or an image beyond the panel's size that the machine does not grant.
    Neither the depth, the offsets nor the length of the pixel array can
    make it fail. *)
Theorem decode_bmp_fails_iff {mem : Memory} (data : list byte) :
  decode_bmp data = None
  ↔ py_len data < 54 ∨
    ∃ h, read_header data = Some h ∧
      (bh_signature h ≠ 0x4D42 ∨ bh_planes h ≠ 1 ∨
       (bh_compression h ≠ 0 ∧ bh_compression h ≠ 3) ∨
       INT_MAX < bh_width h ∨ INT_MAX < Z.abs (bh_height h) ∨
       (within_panel (bh_width h) (Z.abs (bh_height h)) = false ∧
        allocates (bh_width h) (Z.abs (bh_height h)) = false)).
Proof.
  destruct (Z.lt_ge_cases (py_len data) 54) as [Hlen|Hlen].
  { split; [by left|]. intros _. unfold decode_bmp.
    by destruct (Z.ltb_spec (py_len data) 54); [|lia]. }
  destruct (read_header_total data Hlen) as [h Hread].
  destruct (read_header_fields data h Hread) as (Hsig' & _ & _ & Hw0 & _).
  assert (Hrejected : bh_signature h ≠ 0x4D42 ∨ bh_planes h ≠ 1 ∨
                      (bh_compression h ≠ 0 ∧ bh_compression h ≠ 3) →
                      decode_bmp data = None).
  { intros Hbad. unfold decode_bmp.
    destruct (Z.ltb_spec (py_len data) 54); [done|].
    rewrite Hsig', Hread. cbn [mbind option_bind].
    destruct (Z.eqb_spec (bh_signature h) 0x4D42) as [Hsig|]; [|done].
    destruct (Z.eqb_spec (bh_planes h) 1) as [Hplanes|]; [|done].
    destruct (Z.eqb_spec (bh_compression h) 0) as [Hc0|];
      [destruct Hbad as [?|[?|[? _]]]; done|].
    destruct (Z.eqb_spec (bh_compression h) 3) as [Hc3|]; [|done].
    destruct Hbad as [?|[?|[_ ?]]]; done. }
  destruct (Z.eq_dec (bh_signature h) 0x4D42) as [Hsig|Hsig];
    [|split; [intros _; right; exists h; tauto|intros _; apply Hrejected; tauto]].
  destruct (Z.eq_dec (bh_planes h) 1) as [Hplanes|Hplanes];
    [|split; [intros _; right; exists h; tauto|intros _; apply Hrejected; tauto]].
  assert (Hcases : bh_compression h = 0 ∨ bh_compression h = 3
                   ∨ (bh_compression h ≠ 0 ∧ bh_compression h ≠ 3)) by lia.
  destruct Hcases as [Hc|[Hc|Hc]];
    [| |split; [intros _; right; exists h; tauto|intros _; apply Hrejected; tauto]].
  all: assert (Hacc : bmp_accepts data h)
         by (unfold bmp_accepts; split_and!; [done..|tauto]);
       rewrite (decode_bmp_None data h Hacc), image_new_None; split.
  all: try (intros [Hneg|[Hneg|Hnone]]; [lia..|];
            right; exists h; split; [done|]; do 3 right; exact Hnone).
  all: intros [Hshort|(h' & Hread' & Hbad)]; [lia|];
       assert (h' = h) as -> by congruence;
       destruct Hbad as [Hbad|[Hbad|[[Hc0 Hc3]|Hnone]]]; [lia..|];
       do 2 right; exact Hnone.
Qed.

(** X12. At a depth the decoder has a branch for, the bytes read for the
    pixels of one row lie inside that row's stride: from the start of the
    row up to, and not into, the start of the next. *)
Theorem bmp_row_reads_within_stride (h : bmp_header) (row col : Z) :
  supported_depth (bh_depth h) = true → 0 ≤ col < bh_width h →
  bmp_row_offset h row ≤ bmp_last_byte h row col < bmp_row_offset h (row + 1).
Proof.
  intros Hdepth Hcol. unfold bmp_last_byte, bmp_row_offset, bmp_row_size.
  unfold supported_depth in Hdepth.
  destruct (Z.eqb_spec (bh_depth h) 1) as [->|];
    [cbn; Z.div_mod_to_equations; lia|].
  destruct (Z.eqb_spec (bh_depth h) 4) as [->|];
    [cbn; Z.div_mod_to_equations; lia|].
  destruct (Z.eqb_spec (bh_depth h) 8) as [->|];
    [cbn; Z.div_mod_to_equations; lia|].
  destruct (Z.eqb_spec (bh_depth h) 16) as [->|];
    [cbn; Z.div_mod_to_equations; lia|].
  destruct (Z.eqb_spec (bh_depth h) 24) as [->|];
    [cbn; change (24 `div` 8) with 3; Z.div_mod_to_equations; lia|].
  destruct (Z.eqb_spec (bh_depth h) 32) as [->|]; [|done].
  cbn; change (32 `div` 8) with 4; Z.div_mod_to_equations; lia.
Qed.

Lemma bmp_row_reads_within_stride_witness :
  let h := mkHeader 0x4D42 102 62 40 8 (-10) 1 1 0 in
  supported_depth 1 = true ∧ 0 ≤ 7 < 8 ∧
  bmp_row_offset h 3 ≤ bmp_last_byte h 3 7 < bmp_row_offset h (3 + 1).
Proof.
  intros h.
  assert (Hdepth : supported_depth (bh_depth h) = true) by reflexivity.
  assert (Hcol : 0 ≤ 7 < bh_width h) by (cbn; lia).
  exact (conj Hdepth (conj Hcol (bmp_row_reads_within_stride h 3 7 Hdepth Hcol))).
Defined.

(** X13. The palette of an indexed image has exactly 2 ^ depth entries,
    black or white, whatever the payload holds; an entry whose four bytes
    are not all inside the payload is white. Above 8 bits per pixel the
    palette is empty. *)
Theorem bmp_palette_entries (data : list byte) (h : bmp_header) :
  read_header data = Some h →
  Forall (λ v, binary v) (bmp_palette data h) ∧
  (8 < bh_depth h → bmp_palette data h = []) ∧
  (bh_depth h ≤ 8 →
   py_len (bmp_palette data h) = 2 ^ bh_depth h ∧
   ∀ i, 0 ≤ i < 2 ^ bh_depth h →
     py_len data < 14 + bh_header_size h + i * 4 + 4 →
     py_getitem (bmp_palette data h) i = Some COLOR_WHITE).
Proof.
  intros Hread. destruct (bmp_palette_spec data h Hread) as [Hpal Hbin].
  destruct (read_header_fields data h Hread) as (_ & _ & Hhs & _ & Hd).
  split; [done|]. unfold read_palette in Hpal. split.
  - intros Hdeep. destruct (Z.leb_spec (bh_depth h) 8); [lia|]. by injection Hpal.
  - intros Hshallow. destruct (Z.leb_spec (bh_depth h) 8); [|lia].
    rewrite Z.shiftl_1_l in Hpal.
    assert (Hpow : 0 < 2 ^ bh_depth h) by (apply Z.pow_pos_nonneg; lia).
    pose proof (length_mapM _ _ _ Hpal) as Hlen. rewrite length_seqZ in Hlen.
    split; [unfold py_len; lia|]. intros i Hi Hshort.
    apply mapM_Some_1 in Hpal.
    destruct (Forall2_lookup_l _ _ _ (Z.to_nat i) i Hpal) as (v & Hv & Hentry).
    { rewrite lookup_seqZ_lt by lia. f_equal. lia. }
    unfold py_getitem, py_len. rewrite <- Hlen.
    destruct (Z.leb_spec 0 i); [|lia].
    destruct (Z.ltb_spec i (Z.of_nat (Z.to_nat (2 ^ bh_depth h)))); [|lia].
    cbn [andb]. rewrite Hv. f_equal.
    unfold palette_entry in Hentry.
    destruct (Z.leb_spec (14 + bh_header_size h + i * 4 + 4) (py_len data)); [lia|].
    by injection Hentry.
Qed.

Lemma bmp_palette_entries_witness :
  let h := mkHeader 0x4D42 78 70 40 4 2 1 2 0 in
  read_header bmp_2bpp = Some h ∧
  Forall (λ v, binary v) (bmp_palette bmp_2bpp h) ∧
  py_len (bmp_palette bmp_2bpp h) = 2 ^ 2.
Proof.
  intros h.
  assert (Hread : read_header bmp_2bpp = Some h) by by vm_compute.
  destruct (bmp_palette_entries bmp_2bpp h Hread) as (Hbin & _ & Hsize).
  refine (conj Hread (conj Hbin _)).
  apply Hsize. cbn. lia.
Defined.

(** ** Rotation *)

Section Rotation.

Implicit Types (im : Image) (x y : Z).

Lemma getpixel_is_Some im x y :
  wf_image im → inside im x y → is_Some (getpixel im x y).
Proof.
  intros Hwf Hin. rewrite (getpixel_inside _ _ _ Hin).
  apply lookup_lt_is_Some_2. by apply cell_in_range.
Qed.

Lemma remap_wf w h src im : 0 ≤ w → 0 ≤ h → wf_image (remap w h src im).
Proof.
  intros Hw Hh. unfold wf_image, remap; cbn [im_width im_height im_data].
  by rewrite length_fmap, length_seqZ.
Qed.

Lemma getpixel_remap w h src im x y :
  0 ≤ x < w → 0 ≤ y < h →
  getpixel (remap w h src im) x y
  = Some (default 0 (getpixel im (src x y).1 (src x y).2)).
Proof.
  intros Hx Hy.
  assert (Hin : inside (remap w h src im) x y) by done.
  rewrite (getpixel_inside _ _ _ Hin). unfold remap; cbn [im_data im_width].
  assert (0 ≤ y * w) by (apply Z.mul_nonneg_nonneg; lia).
  assert (0 ≤ (h - 1 - y) * w) by (apply Z.mul_nonneg_nonneg; lia).
  rewrite list_lookup_fmap, lookup_seqZ_lt by lia.
  cbn [fmap option_fmap option_map]. rewrite Z2Nat.id, Z.add_0_l by lia.
  rewrite <- (Z.div_unique (y * w + x) w y x) by lia.
  rewrite <- (Z.mod_unique (y * w + x) w y x) by lia.
  by destruct (src x y).
Qed.

(** An image is its size and its cells. *)
Lemma image_ext im im' :
  wf_image im → wf_image im' →
  im_width im = im_width im' → im_height im = im_height im' →
  (∀ x y, inside im x y → getpixel im x y = getpixel im' x y) →
  im = im'.
Proof.
  destruct im as [w h cells], im' as [w' h' cells'].
  unfold wf_image, inside; cbn [im_width im_height im_data].
  intros (Hw & Hh & Hlen) (_ & _ & Hlen') <- <- Hpx. f_equal.
  apply list_eq. intros i.
  destruct (decide (i < length cells)%nat) as [Hi|Hi].
  - assert (Hwpos : 0 < w) by nia.
    assert (Hrange : 0 ≤ Z.of_nat i < w * h) by lia.
    pose proof (Z.mod_pos_bound (Z.of_nat i) w Hwpos) as Hmod.
    pose proof (Z.div_mod (Z.of_nat i) w) as Hdm.
    assert (Hdiv : 0 ≤ Z.of_nat i `div` w < h).
    { split; [apply Z.div_pos; lia|apply Z.div_lt_upper_bound; lia]. }
    specialize (Hpx (Z.of_nat i `mod` w) (Z.of_nat i `div` w) (conj Hmod Hdiv)).
    unfold getpixel, pixel_index in Hpx; cbn [im_width im_height im_data] in Hpx.
    destruct (Z.ltb_spec (Z.of_nat i `mod` w) 0); [lia|].
    destruct (Z.ltb_spec (Z.of_nat i `div` w) 0); [lia|].
    destruct (Z.leb_spec 0 (Z.of_nat i `mod` w)); [|lia].
    destruct (Z.ltb_spec (Z.of_nat i `mod` w) w); [|lia].
    destruct (Z.leb_spec 0 (Z.of_nat i `div` w)); [|lia].
    destruct (Z.ltb_spec (Z.of_nat i `div` w) h); [|lia].
    cbn [andb mbind option_bind] in Hpx.
    replace (Z.to_nat (Z.of_nat i `div` w * w + Z.of_nat i `mod` w)) with i
      in Hpx by lia.
    done.
  - rewrite !lookup_ge_None_2 by lia. done.
Qed.

Lemma ROTATE_180_pixel im x y :
  wf_image im → inside im x y →
  getpixel (ROTATE_180 im) x y
  = getpixel im (im_width im - 1 - x) (im_height im - 1 - y).
Proof.
  intros Hwf [Hx Hy]. unfold ROTATE_180. rewrite getpixel_remap by done.
  cbn [fst snd].
  destruct (getpixel_is_Some im (im_width im - 1 - x) (im_height im - 1 - y))
    as [v ->]; [done|unfold inside; lia|done].
Qed.

Lemma ROTATE_270_pixel im x y :
  wf_image im → 0 ≤ x < im_height im → 0 ≤ y < im_width im →
  getpixel (ROTATE_270 im) x y = getpixel im y (im_height im - 1 - x).
Proof.
  intros Hwf Hx Hy. unfold ROTATE_270. rewrite getpixel_remap by done.
  cbn [fst snd].
  destruct (getpixel_is_Some im y (im_height im - 1 - x))
    as [v ->]; [done|unfold inside; lia|done].
Qed.

Lemma ROTATE_90_pixel im x y :
  wf_image im → 0 ≤ x < im_height im → 0 ≤ y < im_width im →
  getpixel (ROTATE_90 im) x y = getpixel im (im_width im - 1 - y) x.
Proof.
  intros Hwf Hx Hy. unfold ROTATE_90. rewrite getpixel_remap by done.
  cbn [fst snd].
  destruct (getpixel_is_Some im (im_width im - 1 - y) x)
    as [v ->]; [done|unfold inside; lia|done].
Qed.

End Rotation.

(** X14. Rotation code 2 keeps the size and turns the image upside down:
    the cell (x, y) of the result is the cell (w - 1 - x, h - 1 - y) of the
    image, so (0, 0) and (w - 1, h - 1) change places. *)
Theorem apply_rotation_2 (image : Image) (x y : Z) :
  wf_image image → inside image x y →
  im_width (apply_rotation 2 image) = im_width image ∧
  im_height (apply_rotation 2 image) = im_height image ∧
  getpixel (apply_rotation 2 image) x y
  = getpixel image (im_width image - 1 - x) (im_height image - 1 - y).
Proof.
  intros Hwf Hin. change (apply_rotation 2 image) with (ROTATE_180 image).
  split; [done|]. split; [done|]. by apply ROTATE_180_pixel.
Qed.

Lemma apply_rotation_2_witness :
  let image := mkImage 2 2 [0; 255; 255; 255] in
  wf_image image ∧ inside image 1 1 ∧
  getpixel (apply_rotation 2 image) 1 1 = getpixel image (2 - 1 - 1) (2 - 1 - 1).
Proof.
  intros image.
  assert (Hwf : wf_image image) by (unfold wf_image; cbn; lia).
  assert (Hin : inside image 1 1) by (unfold inside; cbn; lia).
  exact (conj Hwf (conj Hin (proj2 (proj2 (apply_rotation_2 image 1 1 Hwf Hin))))).
Defined.

(** X15. Rotation codes 1 and 3 exchange width and height. Code 1 is the
    quarter turn clockwise: the cell (x, y) of the image goes to
    (h - 1 - y, x). Code 3 is the quarter turn counter-clockwise: it goes to
    (y, w - 1 - x). *)
Theorem apply_rotation_quarter_turns (image : Image) (x y : Z) :
  wf_image image → inside image x y →
  im_width (apply_rotation 1 image) = im_height image ∧
  im_height (apply_rotation 1 image) = im_width image ∧
  im_width (apply_rotation 3 image) = im_height image ∧
  im_height (apply_rotation 3 image) = im_width image ∧
  getpixel (apply_rotation 1 image) (im_height image - 1 - y) x
  = getpixel image x y ∧
  getpixel (apply_rotation 3 image) y (im_width image - 1 - x)
  = getpixel image x y.
Proof.
  intros Hwf [Hx Hy].
  change (apply_rotation 1 image) with (ROTATE_270 image).
  change (apply_rotation 3 image) with (ROTATE_90 image).
  split_and!; try done.
  - rewrite ROTATE_270_pixel by (done || lia). f_equal. lia.
  - rewrite ROTATE_90_pixel by (done || lia). f_equal. lia.
Qed.

Lemma apply_rotation_quarter_turns_witness :
  let image := mkImage 3 2 [0; 255; 255; 255; 255; 255] in
  wf_image image ∧ inside image 0 0 ∧
  getpixel (apply_rotation 1 image) (2 - 1 - 0) 0 = getpixel image 0 0 ∧
  getpixel (apply_rotation 3 image) 0 (3 - 1 - 0) = getpixel image 0 0.
Proof.
  intros image.
  assert (Hwf : wf_image image) by (unfold wf_image; cbn; lia).
  assert (Hin : inside image 0 0) by (unfold inside; cbn; lia).
  destruct (apply_rotation_quarter_turns image 0 0 Hwf Hin)
    as (_ & _ & _ & _ & Hcw & Hccw).
  exact (conj Hwf (conj Hin (conj Hcw Hccw))).
Defined.

(** The quarter turns on a 3 x 2 image whose only black cell is (0, 0):
    clockwise it ends top right, counter-clockwise bottom left. *)
Example apply_rotation_samples :
  apply_rotation 1 (mkImage 3 2 [0; 255; 255; 255; 255; 255])
  = mkImage 2 3 [255; 0; 255; 255; 255; 255] ∧
  apply_rotation 3 (mkImage 3 2 [0; 255; 255; 255; 255; 255])
  = mkImage 2 3 [255; 255; 255; 255; 0; 255] ∧
  apply_rotation 2 (mkImage 3 2 [0; 255; 255; 255; 255; 255])
  = mkImage 3 2 [255; 255; 255; 255; 255; 0].
Proof. split_and!; reflexivity. Qed.

(** X16. The rotations undo one another: code 3 after code 1, code 1 after
    code 3 and code 2 twice give the image back, cell for cell. *)
Theorem apply_rotation_round_trip (image : Image) :
  wf_image image →
  apply_rotation 3 (apply_rotation 1 image) = image ∧
  apply_rotation 1 (apply_rotation 3 image) = image ∧
  apply_rotation 2 (apply_rotation 2 image) = image.
Proof.
  intros Hwf. pose proof Hwf as (Hw & Hh & _).
  change (apply_rotation 3 (apply_rotation 1 image))
    with (ROTATE_90 (ROTATE_270 image)).
  change (apply_rotation 1 (apply_rotation 3 image))
    with (ROTATE_270 (ROTATE_90 image)).
  change (apply_rotation 2 (apply_rotation 2 image))
    with (ROTATE_180 (ROTATE_180 image)).
  assert (Hcw : wf_image (ROTATE_270 image)) by by apply remap_wf.
  assert (Hccw : wf_image (ROTATE_90 image)) by by apply remap_wf.
  assert (Hhalf : wf_image (ROTATE_180 image)) by by apply remap_wf.
  split_and!; apply image_ext; try done; try (by apply remap_wf).
  - intros x y [Hx Hy]. cbn [ROTATE_90 ROTATE_270 remap im_width im_height] in Hx, Hy.
    rewrite ROTATE_90_pixel by done.
    change (im_width (ROTATE_270 image)) with (im_height image).
    rewrite ROTATE_270_pixel by (done || lia). f_equal. lia.
  - intros x y [Hx Hy]. cbn [ROTATE_90 ROTATE_270 remap im_width im_height] in Hx, Hy.
    rewrite ROTATE_270_pixel by done.
    change (im_height (ROTATE_90 image)) with (im_width image).
    rewrite ROTATE_90_pixel by (done || lia). f_equal. lia.
  - intros x y [Hx Hy]. cbn [ROTATE_180 remap im_width im_height] in Hx, Hy.
    rewrite ROTATE_180_pixel by done.
    change (im_width (ROTATE_180 image)) with (im_width image).
    change (im_height (ROTATE_180 image)) with (im_height image).
    rewrite ROTATE_180_pixel by (done || (unfold inside; lia)). f_equal; lia.
Qed.

Lemma apply_rotation_round_trip_witness :
  let image := mkImage 3 2 [0; 255; 255; 255; 255; 255] in
  wf_image image ∧
  apply_rotation 3 (apply_rotation 1 image) = image ∧
  apply_rotation 1 (apply_rotation 3 image) = image ∧
  apply_rotation 2 (apply_rotation 2 image) = image.
Proof.
  intros image.
  assert (Hwf : wf_image image) by (unfold wf_image; cbn; lia).
  exact (conj Hwf (apply_rotation_round_trip image Hwf)).
Defined.

(** X17. What the size test of [display_image] finds after a run-length
    payload was decoded and rotated: the image has the size of the panel,
    and is handed over cell for cell, unless the rotation code is 1 or 3;
    only then is it resized. *)
Theorem rotated_canvas_needs_resize {mem : Memory}
    (f : image_format) (data : list byte) (rotation : Z) :
  match f with
  | BMP => True
  | _ => ∃ image, decoder_of f data = Some image ∧
           needs_resize (apply_rotation rotation image)
           = (rotation =? 1) || (rotation =? 3)
  end.
Proof.
  assert (Hsize : ∀ image, im_width image = 800 → im_height image = 480 →
            needs_resize (apply_rotation rotation image)
            = (rotation =? 1) || (rotation =? 3)).
  { intros image Hw Hh. unfold apply_rotation, needs_resize.
    destruct (Z.eqb_spec rotation 1) as [->|];
      [cbn [ROTATE_270 remap im_width im_height]; by rewrite Hw, Hh|].
    destruct (Z.eqb_spec rotation 2) as [->|];
      [cbn [ROTATE_180 remap im_width im_height]; by rewrite Hw, Hh|].
    destruct (Z.eqb_spec rotation 3) as [->|];
      [cbn [ROTATE_90 remap im_width im_height]; by rewrite Hw, Hh|].
    by rewrite Hw, Hh. }
  destruct f; [done| | |]; cbn [decoder_of].
  - destruct (decode_rle_raster z1_loop z1_tokens data z1_loop_tokens)
      as (image & Hdec & Hw & Hh & _). eauto.
  - destruct (decode_rle_raster z2_loop z2_tokens data z2_loop_tokens)
      as (image & Hdec & Hw & Hh & _). eauto.
  - destruct (decode_rle_raster z3_loop z3_tokens data z3_loop_tokens)
      as (image & Hdec & Hw & Hh & _). eauto.
Qed.

(** ** The main loop *)

Section MainLoop.

Context {clock : Clock}.
Implicit Types (self : ZivyObrazClient) (r : http_result) (seen : list loop_event).

Lemma handle_error_spec first_run seen :
  (handle_error first_run seen).1 = false ∧
  (handle_error first_run seen).2
  = seen ++ (if first_run then [ShowRegistration] else []) ++ [Sleep 120].
Proof. by destruct first_run. Qed.

Lemma sleep_step_false sleep_time seen :
  sleep_step false sleep_time seen
  = (false, seen ++ [Sleep (if (sleep_time <? 0) || (MAX_SLEEP <? sleep_time)
                               || negb (clock_takes sleep_time)
                            then 120 else sleep_time)]).
Proof.
  unfold sleep_step.
  by destruct ((sleep_time <? 0) || (MAX_SLEEP <? sleep_time)
               || negb (clock_takes sleep_time)).
Qed.

(** Closes one case of the lemma below, given the number of calls of
    [display_registration_info] and the sleep of the case. *)
Local Ltac turn_case shown seconds :=
  exists shown, seconds;
  split; [reflexivity|];
  split; [first [done|lia]|];
  split; [done|];
  split; [intros ?; split;
            [first [done|intros _; eexists _, _; by split]
            |first [done|intros (? & ? & ? & ?); congruence]]|];
  split; [done|];
  intros ? ? ? ?; first [by right|left; congruence].

(** What a turn leaves and shows, case by case. *)
Lemma run_turn_spec self first_run r download_ok registration_ok :
  ∃ shown seconds,
    (run_turn self first_run r download_ok registration_ok).2
    = (false, replicate shown ShowRegistration ++ [Sleep seconds]) ∧
    0 ≤ seconds ∧
    (first_run = false → shown = 0%nat) ∧
    (first_run = true →
     (shown = 0%nat
      ↔ ∃ sl rot, (check_for_update self r).2 = Returned true sl rot
                  ∧ download_ok = true)) ∧
    ((check_for_update self r).2 = RaisedValueError → seconds = 120) ∧
    (∀ n sl rot, (check_for_update self r).2 = Returned n sl rot →
       seconds = sl ∨ seconds = 120).
Proof.
  unfold run_turn. destruct (check_for_update self r) as [self' outcome].
  cbn [snd]. destruct outcome as [needs_update sl rot|].
  - set (slept := if (sl <? 0) || (MAX_SLEEP <? sl) || negb (clock_takes sl)
                   then 120 else sl).
    assert (Hsec : 0 ≤ slept)
      by (subst slept; destruct (Z.ltb_spec sl 0); cbn [orb];
          [|destruct (_ || _)]; lia).
    assert (Hor : slept = sl ∨ slept = 120)
      by (subst slept; destruct (_ || _); auto).
    destruct needs_update, first_run, download_ok, registration_ok;
      cbn [negb andb snd]; rewrite ?sleep_step_false; fold slept;
      cbn [handle_error app].
    all: try (destruct Hor as [Hor|Hor];
              [turn_case 0%nat slept|turn_case 0%nat slept]).
    all: try (destruct Hor as [Hor|Hor];
              [turn_case 1%nat slept|turn_case 1%nat slept]).
    all: turn_case 2%nat 120.
  - destruct first_run; cbn [handle_error app].
    + turn_case 1%nat 120.
    + turn_case 0%nat 120.
Qed.

End MainLoop.


Section MainLoopTurns.

Context {clock : Clock}.
Implicit Types (self : ZivyObrazClient) (r : http_result).

Lemma run_turns_cons self first_run r download_ok registration_ok rest :
  run_turns self first_run ((r, download_ok, registration_ok) :: rest)
  = (run_turn self first_run r download_ok registration_ok).2.2
    :: run_turns (run_turn self first_run r download_ok registration_ok).1
                 (run_turn self first_run r download_ok registration_ok).2.1
                 rest.
Proof.
  cbn [run_turns].
  by destruct (run_turn self first_run r download_ok registration_ok)
    as [self' [first_run' events]].
Qed.

(** Once [first_run] is off, no turn calls [display_registration_info]. *)
Lemma run_turns_quiet self turns :
  Forall (λ events : list loop_event, ShowRegistration ∉ events)
         (run_turns self false turns).
Proof.
  revert self. induction turns as [|[[r download_ok] registration_ok] rest IH];
    intros self; [by constructor|].
  rewrite run_turns_cons.
  destruct (run_turn_spec self false r download_ok registration_ok)
    as (shown & seconds & Hturn & _ & Hquiet & _).
  rewrite (surjective_pairing (run_turn self false r download_ok registration_ok)).
  rewrite Hturn. cbn [fst snd]. rewrite (Hquiet eq_refl). constructor; [|apply IH].
  cbn. by intros ?%list_elem_of_singleton.
Qed.

End MainLoopTurns.

(** X18. The registration screen belongs to the first turn of the main
    loop: whatever the server answers, the downloads give and the panel
    does, no later turn calls [display_registration_info]. *)
Theorem registration_only_in_first_turn {clock : Clock}
    (self : ZivyObrazClient) (first_run : bool)
    (turn : http_result * bool * bool) (rest : list (http_result * bool * bool)) :
  Forall (λ events : list loop_event, ShowRegistration ∉ events)
         (tail (run_turns self first_run (turn :: rest))).
Proof.
  destruct turn as [[r download_ok] registration_ok].
  rewrite run_turns_cons. cbn [tail].
  destruct (run_turn_spec self first_run r download_ok registration_ok)
    as (shown & seconds & Hturn & _).
  rewrite (surjective_pairing
             (run_turn self first_run r download_ok registration_ok)).
  rewrite Hturn. cbn [fst snd]. apply run_turns_quiet.
Qed.

(** X19. Every turn of the main loop ends with exactly one sleep, and never
    a negative one: it sleeps the time the check returned, or the default
    120 seconds. It is the default whenever the request failed, the status
    was not 200 or a header value made the check raise, and also when the
    server advised a negative time. *)
Theorem run_turn_sleeps_once {clock : Clock}
    (self : ZivyObrazClient) (first_run : bool) (r : http_result)
    (download_ok registration_ok : bool) :
  ∃ shown seconds,
    (run_turn self first_run r download_ok registration_ok).2.2
    = replicate shown ShowRegistration ++ [Sleep seconds] ∧
    0 ≤ seconds ∧
    match (check_for_update self r).2 with
    | RaisedValueError => seconds = 120
    | Returned _ sleep_time _ =>
        seconds = (if sleep_time <? 0 then 120 else sleep_time) ∨ seconds = 120
    end ∧
    match r with
    | RequestException => seconds = 120
    | Response status_code _ => status_code ≠ 200 → seconds = 120
    end.
Proof.
  destruct (run_turn_spec self first_run r download_ok registration_ok)
    as (shown & seconds & Hturn & Hsec & _ & _ & Hraised & Hreturned).
  exists shown, seconds. rewrite Hturn. split; [done|]. split; [done|]. split.
  - destruct (check_for_update self r).2 as [n sl rot|] eqn:Hout; [|by apply Hraised].
    destruct (Hreturned n sl rot eq_refl) as [->| ->]; [|by right].
    left. destruct (Z.ltb_spec sl 0); [lia|done].
  - destruct r as [|status_code headers].
    + by destruct (Hreturned false 120 0 eq_refl).
    + intros Hstatus.
      assert (Hfail : (check_for_update self (Response status_code headers)).2
                      = Returned false 120 0).
      { unfold check_for_update. by destruct (Z.eqb_spec status_code 200). }
      by destruct (Hreturned false 120 0 Hfail).
Qed.

(** X20. On the first turn the registration screen is shown in every case
    but one: the check asked for an update and the download that followed
    succeeded. In particular it is shown when the server reports nothing
    new, and when the check itself fails. *)
Theorem first_turn_registration {clock : Clock}
    (self : ZivyObrazClient) (r : http_result) (download_ok registration_ok : bool) :
  ShowRegistration ∈ (run_turn self true r download_ok registration_ok).2.2
  ↔ ¬ (∃ sl rot, (check_for_update self r).2 = Returned true sl rot
                 ∧ download_ok = true).
Proof.
  destruct (run_turn_spec self true r download_ok registration_ok)
    as (shown & seconds & Hturn & _ & _ & Hfirst & _).
  rewrite Hturn. cbn [snd]. rewrite <- (Hfirst eq_refl).
  rewrite elem_of_app, list_elem_of_singleton. split.
  - intros [Hin|Hin]; [|done]. intros ->. by apply elem_of_nil in Hin.
  - intros Hshown. left. destruct shown; [done|]. by left.
Qed.

(** ** The device address *)

Section DeviceAddressFacts.

Variables (str_strip str_upper : string → string).
Variable read_address : string → read_result.




End DeviceAddressFacts.



(** X22. [get_mac_address] raises in one situation only: a read of
    [wlan0], or of [eth0] when [wlan0] gave no usable address, fails with
    an error other than a missing file. The same error on any interface of
    the directory listing, and a failure of the listing itself, are
    swallowed. *)
Theorem get_mac_address_raises_iff
    (str_strip str_upper : string → string)
    (read_address : string → read_result) (listdir : option (list string)) :
  get_mac_address str_strip str_upper read_address listdir = None
  ↔ read_address "wlan0" = ReadFailed ∨
    (read_address "eth0" = ReadFailed ∧
     match read_address "wlan0" with
     | Text content => usable (str_upper (str_strip content)) = false
     | FileNotFound => True
     | ReadFailed => False
     end).
Proof.
  unfold get_mac_address. cbn [preferred_address].
  destruct (read_address "wlan0") as [| |content]; [| |destruct (usable _)].
  - destruct (read_address "eth0") as [| |content'].
    + split; [|by intros [|[]]]. by repeat case_match.
    + split; [by right|done].
    + split; [|by intros [|[]]]. by repeat case_match.
  - split; [by left|done].
  - split; [done|by intros [|[]]].
  - destruct (read_address "eth0") as [| |content'].
    + split; [|by intros [|[]]]. by repeat case_match.
    + split; [by right|done].
    + split; [|by intros [|[]]]. by repeat case_match.
Qed.


(** ** How the pieces fit *)

(** X23. A body that starts with one of the three run-length magics is
    always decoded, to an 800 x 480 image, whatever follows the magic, an
    empty or a cut stream included: "Failed to decode image" is out of
    reach for these formats. *)
Theorem decode_payload_run_length {mem : Memory}
    (b0 b1 : byte) (rest : list byte) :
  match format_of_header (byte_val b0 + 256 * byte_val b1) with
  | Some BMP | None => True
  | Some _ =>
      ∃ image, decode_payload (b0 :: b1 :: rest) = inr image ∧
        im_width image = 800 ∧ im_height image = 480
  end.
Proof.
  assert (Hrun : decode_payload (b0 :: b1 :: rest)
                 = match format_of_header (byte_val b0 + 256 * byte_val b1) with
                   | Some f => decoded (decoder_of f (b0 :: b1 :: rest))
                   | None => inl UnknownFormat
                   end).
  { unfold decode_payload.
    destruct (Z.ltb_spec (py_len (b0 :: b1 :: rest)) 2) as [Hlen|_];
      [unfold py_len in Hlen; cbn [length] in Hlen; lia|].
    change (unpack_H (py_slice (b0 :: b1 :: rest) 0 2))
      with (Some (byte_val b0 + 256 * byte_val b1)).
    cbn iota. destruct (format_of_header _); [|done].
    by destruct (decoder_of _ _). }
  destruct (format_of_header _) as [[| | |]|]; [done| | | |done]; rewrite Hrun;
    cbn [decoder_of].
  - destruct (decode_rle_raster z1_loop z1_tokens (b0 :: b1 :: rest) z1_loop_tokens)
      as (image & Hdec & Hw & Hh & _).
    exists image. unfold decode_rle_z1. by rewrite Hdec.
  - destruct (decode_rle_raster z2_loop z2_tokens (b0 :: b1 :: rest) z2_loop_tokens)
      as (image & Hdec & Hw & Hh & _).
    exists image. unfold decode_rle_z2. by rewrite Hdec.
  - destruct (decode_rle_raster z3_loop z3_tokens (b0 :: b1 :: rest) z3_loop_tokens)
      as (image & Hdec & Hw & Hh & _).
    exists image. unfold decode_rle_z3. by rewrite Hdec.
Qed.

(** X24. [check_for_update] changes the client exactly when it reports an
    update, whatever the request produced; and then the rotation and the
    sleep time stored are the ones it returns, so the download that follows
    rotates the image by the code of the response that announced it. *)
Theorem check_for_update_changes_iff (self : ZivyObrazClient) (r : http_result) :
  ((check_for_update self r).1 = self
   ↔ ∀ sl rot, (check_for_update self r).2 ≠ Returned true sl rot) ∧
  (∀ sl rot, (check_for_update self r).2 = Returned true sl rot →
     rotation (check_for_update self r).1 = rot ∧
     sleep_time (check_for_update self r).1 = sl ∧
     timestamp (check_for_update self r).1 ≠ timestamp self).
Proof.
  unfold check_for_update.
  destruct r as [|status_code headers]; [by split|].
  destruct (negb (status_code =? 200)); [by split|].
  destruct (parse_headers headers) as [[[ts sl0] rot0]|]; [|by split].
  destruct (Z.eqb_spec ts (timestamp self)) as [Heq|Hne]; cbn [negb fst snd].
  - by split.
  - split.
    + split.
      * intros Hsame. rewrite <- Hsame in Hne. done.
      * intros Hnot. by destruct (Hnot sl0 rot0).
    + by intros sl rot [= <- <-].
Qed.
